(** * converter.js: the batch video converter [WebMToMP4Converter]

    A shallow embedding of [src/converter.js] and of the pieces of the
    Node.js [path] module (POSIX flavour) it calls: [path.extname],
    [path.parse] and [path.join].

    - JavaScript strings are sequences of UTF-16 code units ([jsstring]).
    - The external collaborators (the ffmpeg engine, the file system, the
      Unicode tables behind [String.prototype.toLowerCase]) are the fields
      of the class [Host]; the converter is written against that interface.
    - An [async] method is a computation [M A] that threads the state of
      the outside world, emits the [Event]s it causes, and completes either
      normally or by throwing (a rejected promise). *)

From Stdlib Require Import String Ascii.
From Stdlib Require Import List ZArith NArith Bool Lia Permutation.
Import ListNotations.

Local Open Scope Z_scope.

(* ================================================================== *)
(** ** JavaScript strings *)

(** A string is its sequence of UTF-16 code units. *)
Definition jsstring := list N.

Module JS.

(** String literal: each (ASCII) character of the Rocq string becomes one
    code unit. *)
Definition lit (s : string) : jsstring :=
  map N_of_ascii (list_ascii_of_string s).

Definition unit_eqb (a b : N) : bool := N.eqb a b.

Fixpoint eqb (a b : jsstring) : bool :=
  match a, b with
  | [], [] => true
  | x :: a', y :: b' => unit_eqb x y && eqb a' b'
  | _, _ => false
  end.

(** [s.length] *)
Definition len (s : jsstring) : Z := Z.of_nat (List.length s).

(** Relative index resolution of [String.prototype.slice]. *)
Definition clampIndex (size k : Z) : Z :=
  if k <? 0 then Z.max (size + k) 0 else Z.min k size.

(** [s.slice(a, b)] *)
Definition slice (s : jsstring) (a b : Z) : jsstring :=
  let from := clampIndex (len s) a in
  let to := clampIndex (len s) b in
  firstn (Z.to_nat (to - from)) (skipn (Z.to_nat from) s).

(** [s.lastIndexOf(c)] for a one-unit needle [c]; [-1] when absent. *)
Fixpoint lastIndexOf_from (s : jsstring) (c : N) (i : Z) (found : Z) : Z :=
  match s with
  | [] => found
  | x :: s' => lastIndexOf_from s' c (i + 1) (if unit_eqb x c then i else found)
  end.

Definition lastIndexOf (s : jsstring) (c : N) : Z := lastIndexOf_from s c 0 (-1).

(** [s.charCodeAt(i)] for an index inside the string ([None] is NaN). *)
Definition charCodeAt (s : jsstring) (i : Z) : option N :=
  if i <? 0 then None else nth_error s (Z.to_nat i).

(** [arr.length] *)
Definition alen {A : Type} (arr : list A) : Z := Z.of_nat (List.length arr).

(** [arr.includes(x)] on an array of strings. *)
Definition includes (x : jsstring) (arr : list jsstring) : bool :=
  existsb (eqb x) arr.

(** The ASCII part of the Unicode lower-case mapping: [A-Z] to [a-z],
    every other code unit unchanged. *)
Definition isAsciiUnit (c : N) : bool := N.ltb c 128.

Definition lowerAsciiUnit (c : N) : N :=
  if (N.leb 65 c && N.leb c 90)%bool then (c + 32)%N else c.

Definition lowerAscii (s : jsstring) : jsstring := map lowerAsciiUnit s.

End JS.

(* ================================================================== *)
(** ** The [path] module (POSIX) *)

Module Path.

Definition CHAR_DOT : N := 46.
Definition CHAR_FORWARD_SLASH : N := 47.

Definition isPosixPathSeparator (code : N) : bool :=
  JS.unit_eqb code CHAR_FORWARD_SLASH.

(** The local variables of the backwards scan shared by [extname] and
    [parse]. *)
Record Scan := mkScan {
  startDot : Z;
  startPart : Z;
  end_ : Z;
  matchedSlash : bool;
  preDotState : Z
}.

Definition scan0 : Scan := mkScan (-1) 0 (-1) true 0.

(** One iteration of the scan on a code unit that is not a separator. *)
Definition scan_unit (code : N) (i : Z) (st : Scan) : Scan :=
  let st1 :=
    if end_ st =? -1
    then mkScan (startDot st) (startPart st) (i + 1) false (preDotState st)
    else st in
  if JS.unit_eqb code CHAR_DOT then
    if startDot st1 =? -1
    then mkScan i (startPart st1) (end_ st1) (matchedSlash st1) (preDotState st1)
    else if negb (preDotState st1 =? 1)
         then mkScan (startDot st1) (startPart st1) (end_ st1) (matchedSlash st1) 1
         else st1
  else
    if negb (startDot st1 =? -1)
    then mkScan (startDot st1) (startPart st1) (end_ st1) (matchedSlash st1) (-1)
    else st1.

(** [for (; i >= start; --i)]: [units] are the code units still to visit,
    from index [i] downwards. *)
Fixpoint scan_loop (units : list N) (i : Z) (st : Scan) : Scan :=
  match units with
  | [] => st
  | code :: rest =>
      if JS.unit_eqb code CHAR_FORWARD_SLASH then
        if negb (matchedSlash st)
        then mkScan (startDot st) (i + 1) (end_ st) (matchedSlash st) (preDotState st)
        else scan_loop rest (i - 1) st
      else scan_loop rest (i - 1) (scan_unit code i st)
  end.

(** The test deciding that the component has no extension. *)
Definition noExtension (st : Scan) : bool :=
  (startDot st =? -1)
  || (preDotState st =? 0)
  || ((preDotState st =? 1)
      && (startDot st =? end_ st - 1)
      && (startDot st =? startPart st + 1)).

(** [path.extname(p)] *)
Definition extname (p : jsstring) : jsstring :=
  let st := scan_loop (rev p) (JS.len p - 1) scan0 in
  if noExtension st || (end_ st =? -1)
  then []
  else JS.slice p (startDot st) (end_ st).

Record ParsedPath := mkParsed {
  root : jsstring;
  dir : jsstring;
  base : jsstring;
  ext : jsstring;
  name : jsstring
}.

(** [path.parse(p)] *)
Definition parse (p : jsstring) : ParsedPath :=
  match p with
  | [] => mkParsed [] [] [] [] []
  | c0 :: _ =>
      let isAbsolute := JS.unit_eqb c0 CHAR_FORWARD_SLASH in
      let start := if isAbsolute then 1 else 0 in
      let root_ := if isAbsolute then JS.lit "/" else [] in
      let st := scan_loop (rev (skipn (Z.to_nat start) p)) (JS.len p - 1) scan0 in
      let dir_ :=
        if 0 <? startPart st then JS.slice p 0 (startPart st - 1)
        else if isAbsolute then JS.lit "/" else [] in
      if negb (end_ st =? -1) then
        let start' :=
          if (startPart st =? 0) && isAbsolute then 1 else startPart st in
        if noExtension st
        then
          let b := JS.slice p start' (end_ st) in
          mkParsed root_ dir_ b [] b
        else
          mkParsed root_ dir_
            (JS.slice p start' (end_ st))
            (JS.slice p (startDot st) (end_ st))
            (JS.slice p start' (startDot st))
      else mkParsed root_ dir_ [] [] []
  end.

(** The local variables of [normalizeString]. *)
Record Norm := mkNorm {
  res : jsstring;
  lastSegmentLength : Z;
  lastSlash : Z;
  dots : Z
}.

Definition norm0 : Norm := mkNorm [] 0 (-1) 0.

Definition endsWithTwoDots (r : jsstring) : bool :=
  match JS.charCodeAt r (JS.len r - 1), JS.charCodeAt r (JS.len r - 2) with
  | Some a, Some b => JS.unit_eqb a CHAR_DOT && JS.unit_eqb b CHAR_DOT
  | _, _ => false
  end.

(** The branch taken at index [i] when the current code unit is a
    separator (or at the end of the string). *)
Definition norm_separator (p : jsstring) (allowAboveRoot : bool) (i : Z)
    (st : Norm) : Norm :=
  let close r l := mkNorm r l i 0 in
  let above :=
    if allowAboveRoot
    then close (if 0 <? JS.len (res st)
                then res st ++ JS.lit "/.." else JS.lit "..") 2
    else close (res st) (lastSegmentLength st) in
  if (lastSlash st =? i - 1) || (dots st =? 1) then
    close (res st) (lastSegmentLength st)
  else if dots st =? 2 then
    if (JS.len (res st) <? 2) || negb (lastSegmentLength st =? 2)
       || negb (endsWithTwoDots (res st))
    then
      if 2 <? JS.len (res st) then
        let lastSlashIndex := JS.lastIndexOf (res st) CHAR_FORWARD_SLASH in
        if lastSlashIndex =? -1 then close [] 0
        else
          let r := JS.slice (res st) 0 lastSlashIndex in
          close r (JS.len r - 1 - JS.lastIndexOf r CHAR_FORWARD_SLASH)
      else if negb (JS.len (res st) =? 0) then close [] 0
      else above
    else above
  else
    let seg := JS.slice p (lastSlash st + 1) i in
    close (if 0 <? JS.len (res st) then res st ++ JS.lit "/" ++ seg else seg)
          (i - lastSlash st - 1).

(** The branch taken on a code unit that is not a separator. *)
Definition norm_unit (code : N) (st : Norm) : Norm :=
  if JS.unit_eqb code CHAR_DOT && negb (dots st =? -1)
  then mkNorm (res st) (lastSegmentLength st) (lastSlash st) (dots st + 1)
  else mkNorm (res st) (lastSegmentLength st) (lastSlash st) (-1).

(** [for (let i = 0; i <= path.length; ++i)]: [units] are the code units
    from index [i] on, [code] the unit seen by the previous iteration. *)
Fixpoint norm_loop (p : jsstring) (allowAboveRoot : bool) (units : list N)
    (i : Z) (code : N) (st : Norm) : Norm :=
  match units with
  | [] =>
      if isPosixPathSeparator code then st
      else norm_separator p allowAboveRoot i st
  | c :: rest =>
      norm_loop p allowAboveRoot rest (i + 1) c
        (if isPosixPathSeparator c
         then norm_separator p allowAboveRoot i st
         else norm_unit c st)
  end.

Definition normalizeString (p : jsstring) (allowAboveRoot : bool) : jsstring :=
  res (norm_loop p allowAboveRoot p 0 0%N norm0).

(** [path.normalize(p)] *)
Definition normalize (p : jsstring) : jsstring :=
  match p with
  | [] => JS.lit "."
  | c0 :: _ =>
      let isAbsolute := JS.unit_eqb c0 CHAR_FORWARD_SLASH in
      let trailingSeparator :=
        match JS.charCodeAt p (JS.len p - 1) with
        | Some c => JS.unit_eqb c CHAR_FORWARD_SLASH
        | None => false
        end in
      let q := normalizeString p (negb isAbsolute) in
      match q with
      | [] =>
          if isAbsolute then JS.lit "/"
          else if trailingSeparator then JS.lit "./" else JS.lit "."
      | _ =>
          let q' := if trailingSeparator then q ++ JS.lit "/" else q in
          if isAbsolute then JS.lit "/" ++ q' else q'
      end
  end.

(** The accumulation loop of [path.join]: [joined] is [None] while it is
    still [undefined]. *)
Fixpoint join_loop (args : list jsstring) (joined : option jsstring)
    : option jsstring :=
  match args with
  | [] => joined
  | arg :: rest =>
      join_loop rest
        (if 0 <? JS.len arg then
           match joined with
           | None => Some arg
           | Some j => Some (j ++ JS.lit "/" ++ arg)
           end
         else joined)
  end.

(** [path.join(...args)] *)
Definition join (args : list jsstring) : jsstring :=
  match join_loop args None with
  | None => JS.lit "."
  | Some joined => normalize joined
  end.

End Path.

(* ================================================================== *)
(** ** The outside world *)

(** A JavaScript [Error]; only its [message] is ever read. *)
Record JsError := mkError { message : jsstring }.

(** An entry of a directory: its name and whether it is a directory.
    [fs.readdir] without [withFileTypes] hands back the names only. *)
Record Dirent := mkDirent { d_name : jsstring; d_isDirectory : bool }.

(** The informational events of one ffmpeg command. A progress note
    carries [None] when [progress.percent] is falsy and otherwise
    [Math.round(progress.percent)]. *)
Inductive EngineNote :=
| NoteStart (commandLine : jsstring)
| NoteProgress (rounded : option Z).

(** The collaborators of the converter: the engine behind
    [fluent-ffmpeg], the file system behind [fs-extra], and the Unicode
    case mapping of the JavaScript runtime. [World] is whatever state they
    keep. A command of the engine is assumed to end: it emits its notes and
    then either ['end'] ([None]) or ['error'] ([Some err]). *)
Class Host := {
  World : Type;
  toLowerCase : jsstring -> jsstring;
  toLowerCase_ascii : forall s,
    forallb JS.isAsciiUnit s = true -> toLowerCase s = JS.lowerAscii s;
  getAvailableCodecs : World -> World * option JsError;
  ensureDir : jsstring -> World -> World * option JsError;
  readdir : jsstring -> World -> World * (JsError + list Dirent);
  ffmpegRun : jsstring -> list jsstring -> jsstring -> World
              -> World * (list EngineNote * option JsError)
}.

(** The lines written to the console, one constructor per call site
    (the line of [converter.js] is given). *)
Inductive Message :=
| MsgFfmpegMissing                                  (* 17 *)
| MsgInstallHint                                    (* 18 *)
| MsgFfmpegInstalled                                (* 21 *)
| MsgDirsCreated                                    (* 33 *)
| MsgCreateDirsFailed (errorMessage : jsstring)     (* 35 *)
| MsgReadInputFailed (errorMessage : jsstring)      (* 48 *)
| MsgConverting (inputFile outputFileName : jsstring) (* 60 *)
| MsgCommand (commandLine : jsstring)               (* 72 *)
| MsgProgress (rounded : Z)                         (* 76 *)
| MsgConverted (outputFileName : jsstring)          (* 80 *)
| MsgConvertFailed (inputFile errorMessage : jsstring) (* 84 *)
| MsgBatchStart                                     (* 93 *)
| MsgNoFiles                                        (* 98 *)
| MsgPutFilesHint (inputDir : jsstring)             (* 99 *)
| MsgFound (count : Z)                              (* 103 *)
| MsgFileItem (file : jsstring)                     (* 104 *)
| MsgResultsHeader                                  (* 121 *)
| MsgSuccessCount (count : Z)                       (* 122 *)
| MsgFailedCount (count : Z)                        (* 123 *)
| MsgFailedHeader                                   (* 126 *)
| MsgFailedItem (input error : jsstring)            (* 128 *)
| MsgBanner                                         (* 135 *)
| MsgRule.                                          (* 136 *)

(** What a run does to the outside, in order. *)
Inductive Event :=
| EvGetAvailableCodecs
| EvEnsureDir (dir : jsstring)
| EvReaddir (dir : jsstring)
| EvFfmpeg (input : jsstring) (outputOptions : list jsstring) (output : jsstring)
| EvConsoleLog (m : Message)
| EvConsoleError (m : Message).

(** How an awaited computation ends: with a value, or with a thrown error
    (a rejected promise). *)
Inductive Completion (A : Type) :=
| Normal (a : A)
| Throw (e : JsError).

Arguments Normal {A} a.
Arguments Throw {A} e.

(* ================================================================== *)
(** ** The converter *)

Section Converter.

Context {host : Host}.

(** An asynchronous computation: from a state of the world to the new
    state, the events caused and the completion. *)
Definition M (A : Type) : Type := World -> World * list Event * Completion A.

Definition ret {A} (a : A) : M A := fun w => (w, [], Normal a).

Definition throw {A} (e : JsError) : M A := fun w => (w, [], Throw e).

Definition bind {A B} (m : M A) (k : A -> M B) : M B :=
  fun w =>
    match m w with
    | (w1, t1, Normal a) =>
        match k a w1 with
        | (w2, t2, c) => (w2, t1 ++ t2, c)
        end
    | (w1, t1, Throw e) => (w1, t1, Throw e)
    end.

(** [try { m } catch (error) { handler(error) }] *)
Definition tryCatch {A} (m : M A) (handler : JsError -> M A) : M A :=
  fun w =>
    match m w with
    | (w1, t1, Normal a) => (w1, t1, Normal a)
    | (w1, t1, Throw e) =>
        match handler e w1 with
        | (w2, t2, c) => (w2, t1 ++ t2, c)
        end
    end.

Notation "x <- m ;; k" := (bind m (fun x => k))
  (at level 61, m at next level, right associativity).
Notation "m ;;; k" := (bind m (fun _ => k))
  (at level 61, right associativity).

Definition emit (e : Event) : M unit := fun w => (w, [e], Normal tt).

Definition console_log (m : Message) : M unit := emit (EvConsoleLog m).
Definition console_error (m : Message) : M unit := emit (EvConsoleError m).

(** [arr.forEach(f)] *)
Fixpoint forEach {A} (arr : list A) (f : A -> M unit) : M unit :=
  match arr with
  | [] => ret tt
  | x :: rest => f x ;;; forEach rest f
  end.

(** [ffmpeg.getAvailableCodecs(cb)]: the [err] handed to the callback. *)
Definition ffmpeg_getAvailableCodecs : M (option JsError) :=
  fun w => let (w', err) := getAvailableCodecs w in
           (w', [EvGetAvailableCodecs], Normal err).

(** [await fs.ensureDir(dir)] *)
Definition fs_ensureDir (d : jsstring) : M unit :=
  fun w => let (w', err) := ensureDir d w in
           (w', [EvEnsureDir d],
            match err with Some e => Throw e | None => Normal tt end).

(** [await fs.readdir(dir)]: the names of the entries. *)
Definition fs_readdir (d : jsstring) : M (list jsstring) :=
  fun w => let (w', r) := readdir d w in
           (w', [EvReaddir d],
            match r with
            | inl e => Throw e
            | inr entries => Normal (map d_name entries)
            end).

(** The fields set by the constructor. *)
Record Converter := mkConverter {
  inputDir : jsstring;
  outputDir : jsstring;
  supportedFormats : list jsstring
}.

Definition constructor : Converter :=
  mkConverter (JS.lit "./input") (JS.lit "./output")
    [JS.lit ".webm"; JS.lit ".mkv"; JS.lit ".avi"; JS.lit ".mov"; JS.lit ".flv"].

(** [checkFFmpeg] (lines 13-26) *)
Definition checkFFmpeg (this : Converter) : M bool :=
  err <- ffmpeg_getAvailableCodecs ;;
  match err with
  | Some _ =>
      console_error MsgFfmpegMissing ;;;
      console_log MsgInstallHint ;;;
      ret false
  | None =>
      console_log MsgFfmpegInstalled ;;;
      ret true
  end.

(** [createDirectories] (lines 29-37) *)
Definition createDirectories (this : Converter) : M unit :=
  tryCatch
    (fs_ensureDir (inputDir this) ;;;
     fs_ensureDir (outputDir this) ;;;
     console_log MsgDirsCreated)
    (fun error => console_error (MsgCreateDirsFailed (message error))).

(** The predicate handed to [files.filter] (lines 43-46). *)
Definition isSupported (this : Converter) (file : jsstring) : bool :=
  let ext := toLowerCase (Path.extname file) in
  JS.includes ext (supportedFormats this).

(** [getInputFiles] (lines 40-51) *)
Definition getInputFiles (this : Converter) : M (list jsstring) :=
  tryCatch
    (files <- fs_readdir (inputDir this) ;;
     ret (filter (isSupported this) files))
    (fun error =>
       console_error (MsgReadInputFailed (message error)) ;;;
       ret []).

(** The options handed to [outputOptions] (lines 63-69). *)
Definition outputOptions : list jsstring :=
  [JS.lit "-c:v libx264"; JS.lit "-c:a aac"; JS.lit "-preset medium";
   JS.lit "-crf 23"; JS.lit "-movflags +faststart"].

(** Lines 55-57 of [convertFile]. *)
Definition inputPathOf (this : Converter) (inputFile : jsstring) : jsstring :=
  Path.join [inputDir this; inputFile].

Definition outputFileNameOf (inputFile : jsstring) : jsstring :=
  Path.name (Path.parse inputFile) ++ JS.lit ".mp4".

Definition outputPathOf (this : Converter) (inputFile : jsstring) : jsstring :=
  Path.join [outputDir this; outputFileNameOf inputFile].

(** The ['start'] and ['progress'] handlers (lines 71-78). *)
Definition onNote (n : EngineNote) : M unit :=
  match n with
  | NoteStart commandLine => console_log (MsgCommand commandLine)
  | NoteProgress (Some rounded) => console_log (MsgProgress rounded)
  | NoteProgress None => ret tt
  end.

(** Building and running the command (lines 62-87): the notes, then the
    terminal event. *)
Definition ffmpeg_run (inputPath outputPath : jsstring)
    : M (list EngineNote * option JsError) :=
  fun w => let (w', r) := ffmpegRun inputPath outputOptions outputPath w in
           (w', [EvFfmpeg inputPath outputOptions outputPath], Normal r).

(** [convertFile] (lines 54-89) *)
Definition convertFile (this : Converter) (inputFile : jsstring) : M jsstring :=
  let inputPath := inputPathOf this inputFile in
  let outputFileName := outputFileNameOf inputFile in
  let outputPath := outputPathOf this inputFile in
  console_log (MsgConverting inputFile outputFileName) ;;;
  r <- ffmpeg_run inputPath outputPath ;;
  forEach (fst r) onNote ;;;
  match snd r with
  | None =>
      console_log (MsgConverted outputFileName) ;;;
      ret outputPath
  | Some err =>
      console_error (MsgConvertFailed inputFile (message err)) ;;;
      throw err
  end.

(** The objects pushed on [results.success] and [results.failed]. *)
Record SuccessItem := mkSuccess { s_input : jsstring; s_output : jsstring }.
Record FailedItem := mkFailed { f_input : jsstring; f_error : jsstring }.

Record Results := mkResults {
  success : list SuccessItem;
  failed : list FailedItem
}.

(** The [for ... of] loop of [convertAll] (lines 111-118). *)
Fixpoint convertLoop (this : Converter) (files : list jsstring)
    (results : Results) : M Results :=
  match files with
  | [] => ret results
  | file :: rest =>
      results' <-
        tryCatch
          (outputPath <- convertFile this file ;;
           ret (mkResults (success results ++ [mkSuccess file outputPath])
                          (failed results)))
          (fun error =>
             ret (mkResults (success results)
                            (failed results ++ [mkFailed file (message error)]))) ;;
      convertLoop this rest results'
  end.

(** [convertAll] (lines 92-131) *)
Definition convertAll (this : Converter) : M unit :=
  console_log MsgBatchStart ;;;
  files <- getInputFiles this ;;
  if JS.alen files =? 0 then
    console_log MsgNoFiles ;;;
    console_log (MsgPutFilesHint (inputDir this))
  else
    console_log (MsgFound (JS.alen files)) ;;;
    forEach files (fun file => console_log (MsgFileItem file)) ;;;
    results <- convertLoop this files (mkResults [] []) ;;
    console_log MsgResultsHeader ;;;
    console_log (MsgSuccessCount (JS.alen (success results))) ;;;
    console_log (MsgFailedCount (JS.alen (failed results))) ;;;
    if 0 <? JS.alen (failed results) then
      console_log MsgFailedHeader ;;;
      forEach (failed results)
        (fun item => console_log (MsgFailedItem (f_input item) (f_error item)))
    else ret tt.

(** [run] (lines 134-149) *)
Definition run (this : Converter) : M unit :=
  console_log MsgBanner ;;;
  console_log MsgRule ;;;
  ffmpegAvailable <- checkFFmpeg this ;;
  if negb ffmpegAvailable then ret tt
  else
    createDirectories this ;;;
    convertAll this.

End Converter.

(* ================================================================== *)
(** ** Observations on runs, and the vocabulary of the specification *)

Section Observations.

Context {host : Host}.

Definition world_of {A} (r : World * list Event * Completion A) : World :=
  fst (fst r).
Definition trace_of {A} (r : World * list Event * Completion A) : list Event :=
  snd (fst r).
Definition completion_of {A} (r : World * list Event * Completion A)
    : Completion A := snd r.

(** The commands handed to the engine, as (input path, output path). *)
Fixpoint engineInvocations (t : list Event) : list (jsstring * jsstring) :=
  match t with
  | [] => []
  | EvFfmpeg i _ o :: t' => (i, o) :: engineInvocations t'
  | _ :: t' => engineInvocations t'
  end.

(** The directories the run asked the file system to create. *)
Fixpoint fsWrites (t : list Event) : list jsstring :=
  match t with
  | [] => []
  | EvEnsureDir d :: t' => d :: fsWrites t'
  | _ :: t' => fsWrites t'
  end.

(** The directories the run listed. *)
Fixpoint fsReads (t : list Event) : list jsstring :=
  match t with
  | [] => []
  | EvReaddir d :: t' => d :: fsReads t'
  | _ :: t' => fsReads t'
  end.

(** Console lines that report a converted file, a failed file, or the
    counts of the summary. *)
Definition isSuccessReport (e : Event) : bool :=
  match e with
  | EvConsoleLog (MsgConverted _) => true
  | EvConsoleLog (MsgSuccessCount _) => true
  | _ => false
  end.

Definition isFailureReport (e : Event) : bool :=
  match e with
  | EvConsoleError (MsgConvertFailed _ _) => true
  | EvConsoleLog (MsgFailedCount _) => true
  | EvConsoleLog (MsgFailedItem _ _) => true
  | _ => false
  end.

(** The console lines of the ['start'] and ['progress'] handlers. *)
Definition noteEvents (notes : list EngineNote) : list Event :=
  flat_map (fun n => match n with
                     | NoteStart c => [EvConsoleLog (MsgCommand c)]
                     | NoteProgress (Some r) => [EvConsoleLog (MsgProgress r)]
                     | NoteProgress None => []
                     end) notes.

(** The summary block printed by [convertAll] (lines 121-130). *)
Definition summaryEvents (results : Results) : list Event :=
  [EvConsoleLog MsgResultsHeader;
   EvConsoleLog (MsgSuccessCount (JS.alen (success results)));
   EvConsoleLog (MsgFailedCount (JS.alen (failed results)))]
  ++ (if 0 <? JS.alen (failed results)
      then EvConsoleLog MsgFailedHeader ::
           map (fun item => EvConsoleLog
                              (MsgFailedItem (f_input item) (f_error item)))
               (failed results)
      else []).

(** The creation of the workspace fails with [err] from the world [w],
    leaving the world [w']: on the input directory, or on the output
    directory after the input directory was created. *)
Definition workspaceFails (this : Converter) (w w' : World) (err : JsError)
    : Prop :=
  ensureDir (inputDir this) w = (w', Some err) \/
  exists w1, ensureDir (inputDir this) w = (w1, None) /\
             ensureDir (outputDir this) w1 = (w', Some err).

(** The set of recognized extensions, as the specification lists it. *)
Definition recognizedSet : list jsstring :=
  [JS.lit ".webm"; JS.lit ".mkv"; JS.lit ".avi"; JS.lit ".mov"; JS.lit ".flv"].

(** Two strings are the same up to letter case when they have the same
    lower-case form. *)
Definition sameIgnoringCase (a b : jsstring) : Prop :=
  toLowerCase a = toLowerCase b.

(** An entry is recognized when its extension is, ignoring case, a member
    of the recognized set. *)
Definition Recognized (file : jsstring) : Prop :=
  exists e, In e recognizedSet /\ sameIgnoringCase (Path.extname file) e.

End Observations.

(** [c] occurs in [s]. *)
Definition hasUnit (c : N) (s : jsstring) : bool := existsb (JS.unit_eqb c) s.

(** [preDotState] once the scan has gone through the units [pre] that
    stand before the last dot: it only remembers the first of them. *)
Definition preDotOf (pre : jsstring) : Z :=
  match pre with
  | [] => 0
  | c :: _ => if JS.unit_eqb c Path.CHAR_DOT then 1 else -1
  end.

(** The loop of [normalizeString] over units that are not separators. *)
Definition norm_units (units : list N) (st : Path.Norm) : Path.Norm :=
  fold_left (fun s c => Path.norm_unit c s) units st.

(** An extension written in any mix of ASCII letter cases. *)
Definition recognizedExt (e : jsstring) : Prop :=
  In (JS.lowerAscii e) recognizedSet.

(* ================================================================== *)
(** ** Further observations on runs *)

(** The commands handed to the engine, with their options. *)
Definition engineCommands (t : list Event)
    : list (jsstring * list jsstring * jsstring) :=
  flat_map (fun e => match e with
                     | EvFfmpeg i opts o => [(i, opts, o)]
                     | _ => []
                     end) t.

(** The probes of the engine. *)
Definition probes (t : list Event) : list unit :=
  flat_map (fun e => match e with
                     | EvGetAvailableCodecs => [tt]
                     | _ => []
                     end) t.

(** The output names reported as converted (line 80). *)
Definition convertedLines (t : list Event) : list jsstring :=
  flat_map (fun e => match e with
                     | EvConsoleLog (MsgConverted o) => [o]
                     | _ => []
                     end) t.

(** The failures reported when they happen (line 84): file and message. *)
Definition failureLines (t : list Event) : list (jsstring * jsstring) :=
  flat_map (fun e => match e with
                     | EvConsoleError (MsgConvertFailed f m) => [(f, m)]
                     | _ => []
                     end) t.

(** The failures listed by the summary (line 128): file and message. *)
Definition summaryFailures (t : list Event) : list (jsstring * jsstring) :=
  flat_map (fun e => match e with
                     | EvConsoleLog (MsgFailedItem f m) => [(f, m)]
                     | _ => []
                     end) t.

(** The counts printed by the summary (lines 122 and 123). *)
Definition successCounts (t : list Event) : list Z :=
  flat_map (fun e => match e with
                     | EvConsoleLog (MsgSuccessCount n) => [n]
                     | _ => []
                     end) t.

Definition failedCounts (t : list Event) : list Z :=
  flat_map (fun e => match e with
                     | EvConsoleLog (MsgFailedCount n) => [n]
                     | _ => []
                     end) t.

(** The failed header of the summary (line 126). *)
Definition failedHeaders (t : list Event) : list unit :=
  flat_map (fun e => match e with
                     | EvConsoleLog MsgFailedHeader => [tt]
                     | _ => []
                     end) t.

(** An event that only writes to the console. *)
Definition isConsole (e : Event) : bool :=
  match e with
  | EvConsoleLog _ | EvConsoleError _ => true
  | _ => false
  end.

(** What the engine answers to one command: its notes and its terminal
    event. *)
Definition Outcome : Type := (list EngineNote * option JsError)%type.

(** The events of one call of [convertFile] on [file] when the engine
    answers [o]. *)
Definition fileEvents (this : Converter) (fo : jsstring * Outcome)
    : list Event :=
  [EvConsoleLog (MsgConverting (fst fo) (outputFileNameOf (fst fo)));
   EvFfmpeg (inputPathOf this (fst fo)) outputOptions
            (outputPathOf this (fst fo))]
  ++ noteEvents (fst (snd fo))
  ++ match snd (snd fo) with
     | None => [EvConsoleLog (MsgConverted (outputFileNameOf (fst fo)))]
     | Some err =>
         [EvConsoleError (MsgConvertFailed (fst fo) (message err))]
     end.

(** The items one turn of the loop pushes on [results.success] and on
    [results.failed]. *)
Definition successOf (this : Converter) (fo : jsstring * Outcome)
    : list SuccessItem :=
  match snd (snd fo) with
  | None => [mkSuccess (fst fo) (outputPathOf this (fst fo))]
  | Some _ => []
  end.

Definition failedOf (fo : jsstring * Outcome) : list FailedItem :=
  match snd (snd fo) with
  | None => []
  | Some err => [mkFailed (fst fo) (message err)]
  end.



(* ================================================================== *)
(** ** A scripted host, to run the converter on concrete inputs *)

Module Scripted.

Record Script := mkScript {
  codecsError : option JsError;
  ensureError : jsstring -> option JsError;
  listing : JsError + list Dirent;
  engine : jsstring -> list EngineNote * option JsError
}.

(** The world is the number of calls made so far; every call answers from
    the script. *)
Definition hostOf (s : Script) : Host := {|
  World := nat;
  toLowerCase := JS.lowerAscii;
  toLowerCase_ascii := fun _ _ => eq_refl;
  getAvailableCodecs := fun w => (S w, codecsError s);
  ensureDir := fun d w => (S w, ensureError s d);
  readdir := fun _ w => (S w, listing s);
  ffmpegRun := fun i _ _ w => (S w, engine s i)
|}.

Definition err (m : string) : JsError := mkError (JS.lit m).

Definition file (n : string) : Dirent := mkDirent (JS.lit n) false.
Definition directory (n : string) : Dirent := mkDirent (JS.lit n) true.

(** The scenario of the specification: [clip.webm] converts, [broken.mkv]
    fails with "invalid frame"; [notes.txt] is not a video. *)
Definition scenario : Script :=
  mkScript None (fun _ => None)
    (inr [file "clip.webm"; file "notes.txt"; file "broken.mkv"])
    (fun i => if JS.eqb i (JS.lit "input/broken.mkv")
              then ([NoteStart (JS.lit "ffmpeg")], Some (err "invalid frame"))
              else ([NoteStart (JS.lit "ffmpeg"); NoteProgress (Some 50)], None)).

(** No engine installed. *)
Definition noEngine : Script :=
  mkScript (Some (err "Cannot find ffmpeg")) (fun _ => None)
    (inr [file "clip.webm"]) (fun _ => ([], None)).

(** The input directory cannot be created, and so cannot be read. *)
Definition noWorkspace : Script :=
  mkScript None (fun _ => Some (err "EACCES")) (inl (err "ENOENT"))
    (fun _ => ([], None)).

(** The input directory holds a sub-directory named like a video, a
    dot-file named like an extension, and a text file. *)
Definition oddEntries : Script :=
  mkScript None (fun _ => None)
    (inr [directory "clips.webm"; file ".webm"; file "readme.txt"])
    (fun _ => ([], Some (err "Invalid data found"))).

End Scripted.

Module MoreScripts.

Import Scripted.

(** The directories cannot be created, yet the input directory is there
    and can be listed. *)
Definition readOnly : Script :=
  mkScript None (fun _ => Some (err "EROFS"))
    (inr [file "b.avi"; file "notes.txt"; file "a.MOV"])
    (fun _ => ([], None)).

End MoreScripts.

(* ================================================================== *)
(** ** Facts about strings *)

Arguments JS.unit_eqb : simpl never.

Lemma unit_eqb_eq (a b : N) : JS.unit_eqb a b = true <-> a = b.
Proof. unfold JS.unit_eqb. apply N.eqb_eq. Qed.

Lemma unit_eqb_neq (a b : N) : JS.unit_eqb a b = false <-> a <> b.
Proof. unfold JS.unit_eqb. apply N.eqb_neq. Qed.

Lemma jseqb_eq (a b : jsstring) : JS.eqb a b = true <-> a = b.
Proof.
  revert b. induction a as [|x a IH]; intros [|y b]; simpl; split;
    try congruence; try reflexivity.
  - intros H. apply andb_true_iff in H as [Hx Hab].
    apply unit_eqb_eq in Hx. apply IH in Hab. congruence.
  - intros H. injection H as -> ->. apply andb_true_iff. split.
    + now apply unit_eqb_eq.
    + now apply IH.
Qed.

Lemma includes_In (x : jsstring) (arr : list jsstring) :
  JS.includes x arr = true <-> In x arr.
Proof.
  unfold JS.includes. rewrite existsb_exists. split.
  - intros [y [Hy Hxy]]. apply jseqb_eq in Hxy. now subst.
  - intros Hx. exists x. split; [assumption | now apply jseqb_eq].
Qed.

Lemma hasUnit_app (c : N) (a b : jsstring) :
  hasUnit c (a ++ b) = hasUnit c a || hasUnit c b.
Proof. unfold hasUnit. apply existsb_app. Qed.

Lemma hasUnit_rev (c : N) (a : jsstring) : hasUnit c (rev a) = hasUnit c a.
Proof.
  induction a as [|x a IH]; [reflexivity|].
  simpl rev. rewrite hasUnit_app, IH. simpl. rewrite orb_false_r.
  apply orb_comm.
Qed.

Lemma hasUnit_cons_false (c x : N) (a : jsstring) :
  hasUnit c (x :: a) = false -> x <> c /\ hasUnit c a = false.
Proof.
  simpl. intros H. apply orb_false_iff in H as [Hx Ha]. split; [|assumption].
  apply unit_eqb_neq in Hx. congruence.
Qed.

Lemma len_app (a b : jsstring) : JS.len (a ++ b) = JS.len a + JS.len b.
Proof. unfold JS.len. rewrite length_app. lia. Qed.

Lemma len_cons (x : N) (a : jsstring) : JS.len (x :: a) = JS.len a + 1.
Proof. unfold JS.len. simpl length. lia. Qed.

Lemma len_nonneg (a : jsstring) : 0 <= JS.len a.
Proof. unfold JS.len. lia. Qed.

Lemma len_rev (a : jsstring) : JS.len (rev a) = JS.len a.
Proof. unfold JS.len. now rewrite length_rev. Qed.

(** Inside the string, [slice] is [firstn] after [skipn]. *)
Lemma slice_inside (s : jsstring) (a b : Z) :
  0 <= a <= b -> b <= JS.len s ->
  JS.slice s a b = firstn (Z.to_nat (b - a)) (skipn (Z.to_nat a) s).
Proof.
  intros Ha Hb. unfold JS.slice, JS.clampIndex.
  destruct (Z.ltb_spec a 0); [lia|]. destruct (Z.ltb_spec b 0); [lia|].
  now rewrite !Z.min_l by lia.
Qed.

Lemma slice_prefix (a b : jsstring) : JS.slice (a ++ b) 0 (JS.len a) = a.
Proof.
  rewrite slice_inside.
  - simpl. rewrite Z.sub_0_r. unfold JS.len. rewrite Nat2Z.id.
    rewrite firstn_app, firstn_all, Nat.sub_diag. simpl. apply app_nil_r.
  - pose proof (len_nonneg a). lia.
  - rewrite len_app. pose proof (len_nonneg b). lia.
Qed.

Lemma slice_suffix (a b : jsstring) :
  JS.slice (a ++ b) (JS.len a) (JS.len a + JS.len b) = b.
Proof.
  rewrite slice_inside.
  - replace (JS.len a + JS.len b - JS.len a) with (JS.len b) by lia.
    unfold JS.len. rewrite !Nat2Z.id.
    rewrite skipn_app, skipn_all, Nat.sub_diag. simpl. apply firstn_all.
  - pose proof (len_nonneg a). pose proof (len_nonneg b). lia.
  - rewrite len_app. lia.
Qed.

(** A string either has no dot or splits at its last dot. *)
Lemma last_dot_split (s : jsstring) :
  hasUnit Path.CHAR_DOT s = false \/
  exists pre suf, s = pre ++ Path.CHAR_DOT :: suf /\
                  hasUnit Path.CHAR_DOT suf = false.
Proof.
  induction s as [|x s IH]; [now left|].
  destruct IH as [Hno | (pre & suf & -> & Hsuf)].
  - destruct (JS.unit_eqb Path.CHAR_DOT x) eqn:Hx.
    + right. exists [], s. apply unit_eqb_eq in Hx. subst x. now split.
    + left. simpl. now rewrite Hx.
  - right. exists (x :: pre), suf. now split.
Qed.

(** Lower-casing neither creates nor removes a dot or a slash. *)
Lemma lowerAsciiUnit_fixes (c k : N) :
  (k < 65)%N -> (JS.lowerAsciiUnit c = k <-> c = k).
Proof.
  intros Hk. unfold JS.lowerAsciiUnit.
  destruct (N.leb_spec 65 c); destruct (N.leb_spec c 90); simpl;
    split; intros; subst; lia.
Qed.

Lemma hasUnit_lowerAscii (k : N) (s : jsstring) :
  (k < 65)%N -> hasUnit k (JS.lowerAscii s) = hasUnit k s.
Proof.
  intros Hk. induction s as [|x s IH]; [reflexivity|].
  simpl. rewrite IH. f_equal.
  destruct (JS.unit_eqb k x) eqn:E.
  - apply unit_eqb_eq in E. subst x. apply unit_eqb_eq.
    symmetry. now apply lowerAsciiUnit_fixes.
  - apply unit_eqb_neq. apply unit_eqb_neq in E. intros E'. apply E.
    symmetry. apply (lowerAsciiUnit_fixes x k Hk). now symmetry.
Qed.

(* ================================================================== *)
(** ** Facts about [path.extname] and [path.parse] on file names *)

Import Path.

(** After the dot and the end are found, only [preDotState] moves. *)
Lemma scan_settled (units : list N) : forall i st,
  hasUnit CHAR_FORWARD_SLASH units = false ->
  startDot st <> -1 -> end_ st <> -1 ->
  scan_loop units i st =
  mkScan (startDot st) (startPart st) (end_ st) (matchedSlash st)
    (fold_left (fun _ c => if JS.unit_eqb c CHAR_DOT then 1 else -1)
               units (preDotState st)).
Proof.
  induction units as [|c units IH]; intros i [sd sp e m pd] Hs Hd He;
    simpl in *.
  - reflexivity.
  - apply orb_false_iff in Hs as [Hc Hs].
    replace (JS.unit_eqb c CHAR_FORWARD_SLASH) with false
      by (symmetry; apply unit_eqb_neq; apply unit_eqb_neq in Hc; congruence).
    unfold scan_unit; simpl.
    destruct (Z.eqb_spec e (-1)); [contradiction|].
    destruct (JS.unit_eqb c CHAR_DOT); simpl.
    + destruct (Z.eqb_spec sd (-1)); [contradiction|].
      destruct (Z.eqb_spec pd 1); simpl; rewrite IH by assumption; simpl;
        subst; reflexivity.
    + destruct (Z.eqb_spec sd (-1)); [contradiction|]. simpl.
      rewrite IH by assumption. reflexivity.
Qed.

(** Before the dot, once the end is marked, units other than a dot leave
    the state alone. *)
Lemma scan_skip (units : list N) : forall rest i sp e m pd,
  hasUnit CHAR_FORWARD_SLASH units = false ->
  hasUnit CHAR_DOT units = false -> e <> -1 ->
  scan_loop (units ++ rest) i (mkScan (-1) sp e m pd) =
  scan_loop rest (i - JS.len units) (mkScan (-1) sp e m pd).
Proof.
  induction units as [|c units IH]; intros rest i sp e m pd Hs Hd He.
  - simpl. f_equal. unfold JS.len. simpl. lia.
  - apply hasUnit_cons_false in Hs as [Hc Hs].
    apply hasUnit_cons_false in Hd as [Hc' Hd].
    simpl.
    replace (JS.unit_eqb c CHAR_FORWARD_SLASH) with false
      by (symmetry; now apply unit_eqb_neq).
    unfold scan_unit; simpl.
    destruct (Z.eqb_spec e (-1)); [contradiction|].
    replace (JS.unit_eqb c CHAR_DOT) with false
      by (symmetry; now apply unit_eqb_neq).
    simpl. rewrite IH by assumption. f_equal. rewrite len_cons. lia.
Qed.

Lemma preDot_fold (pre : jsstring) (z : Z) :
  fold_left (fun _ c => if JS.unit_eqb c CHAR_DOT then 1 else -1) (rev pre) z =
  match pre with [] => z | _ => preDotOf pre end.
Proof.
  destruct pre as [|c pre]; [reflexivity|].
  simpl rev. rewrite fold_left_app. reflexivity.
Qed.

(** The state of the scan on a name without slash, split at its last
    dot. *)
Lemma scan_last_dot (pre suf : jsstring) :
  hasUnit CHAR_FORWARD_SLASH pre = false ->
  hasUnit CHAR_FORWARD_SLASH suf = false ->
  hasUnit CHAR_DOT suf = false ->
  scan_loop (rev (pre ++ CHAR_DOT :: suf))
            (JS.len (pre ++ CHAR_DOT :: suf) - 1) scan0 =
  mkScan (JS.len pre) 0 (JS.len pre + 1 + JS.len suf) false (preDotOf pre).
Proof.
  intros Hpre Hsuf Hdot.
  rewrite rev_app_distr. simpl rev. rewrite <- app_assoc. simpl app.
  rewrite len_app, len_cons.
  rewrite <- (hasUnit_rev _ suf) in Hsuf. rewrite <- (hasUnit_rev _ suf) in Hdot.
  rewrite <- (hasUnit_rev _ pre) in Hpre.
  rewrite <- (len_rev suf).
  pose proof (len_nonneg pre) as Hp. pose proof (len_nonneg (rev suf)) as Hq.
  destruct (rev suf) as [|c r].
  - change (JS.len []) with 0. simpl scan_loop.
    change (JS.unit_eqb CHAR_DOT CHAR_FORWARD_SLASH) with false. cbv iota.
    unfold scan_unit, scan0; simpl.
    change (JS.unit_eqb CHAR_DOT CHAR_DOT) with true. simpl.
    rewrite scan_settled; simpl; try assumption; try lia.
    rewrite preDot_fold. f_equal; try lia.
    destruct pre; reflexivity.
  - apply hasUnit_cons_false in Hsuf as [Hc Hsuf].
    apply hasUnit_cons_false in Hdot as [Hc' Hdot].
    rewrite len_cons in *. simpl scan_loop.
    replace (JS.unit_eqb c CHAR_FORWARD_SLASH) with false
      by (symmetry; now apply unit_eqb_neq).
    unfold scan_unit at 1, scan0; simpl.
    replace (JS.unit_eqb c CHAR_DOT) with false
      by (symmetry; now apply unit_eqb_neq).
    simpl. rewrite scan_skip by (assumption || lia).
    simpl scan_loop.
    change (JS.unit_eqb CHAR_DOT CHAR_FORWARD_SLASH) with false. cbv iota.
    unfold scan_unit; simpl.
    destruct (Z.eqb_spec (JS.len pre + (JS.len r + 1 + 1) - 1 + 1) (-1));
      [lia|].
    change (JS.unit_eqb CHAR_DOT CHAR_DOT) with true. simpl.
    rewrite scan_settled; simpl; try assumption; try lia.
    rewrite preDot_fold. f_equal; try lia.
    destruct pre; reflexivity.
Qed.

(** The state of the scan on a name with neither slash nor dot. *)
Lemma scan_no_dot (p : jsstring) :
  hasUnit CHAR_FORWARD_SLASH p = false -> hasUnit CHAR_DOT p = false ->
  p <> [] ->
  scan_loop (rev p) (JS.len p - 1) scan0 = mkScan (-1) 0 (JS.len p) false 0.
Proof.
  intros Hs Hd Hne.
  rewrite <- (hasUnit_rev _ p) in Hs. rewrite <- (hasUnit_rev _ p) in Hd.
  rewrite <- (len_rev p).
  assert (Hr : rev p <> []).
  { intros E. apply Hne. rewrite <- (rev_involutive p), E. reflexivity. }
  destruct (rev p) as [|c r]; [contradiction|].
  apply hasUnit_cons_false in Hs as [Hc Hs].
  apply hasUnit_cons_false in Hd as [Hc' Hd].
  rewrite len_cons. simpl scan_loop.
  replace (JS.unit_eqb c CHAR_FORWARD_SLASH) with false
    by (symmetry; now apply unit_eqb_neq).
  unfold scan_unit, scan0; simpl.
  replace (JS.unit_eqb c CHAR_DOT) with false
    by (symmetry; now apply unit_eqb_neq).
  simpl. pose proof (len_nonneg r).
  rewrite <- (app_nil_r r) at 1. rewrite scan_skip by (assumption || lia).
  simpl. f_equal. lia.
Qed.

Lemma preDotOf_cases (pre : jsstring) :
  pre <> [] -> preDotOf pre = 1 \/ preDotOf pre = -1.
Proof.
  destruct pre as [|c pre]; [contradiction|]. intros _. simpl.
  destruct (JS.unit_eqb c CHAR_DOT); auto.
Qed.

(** A name without slash is parsed as a relative path from index 0. *)
Lemma parse_relative (p : jsstring) :
  hasUnit CHAR_FORWARD_SLASH p = false -> p <> [] ->
  parse p =
  let st := scan_loop (rev p) (JS.len p - 1) scan0 in
  let dir_ := if 0 <? startPart st then JS.slice p 0 (startPart st - 1) else [] in
  if negb (end_ st =? -1) then
    if noExtension st
    then mkParsed [] dir_ (JS.slice p (startPart st) (end_ st)) []
                  (JS.slice p (startPart st) (end_ st))
    else mkParsed [] dir_ (JS.slice p (startPart st) (end_ st))
                  (JS.slice p (startDot st) (end_ st))
                  (JS.slice p (startPart st) (startDot st))
  else mkParsed [] dir_ [] [] [].
Proof.
  intros Hs Hne. destruct p as [|c0 p]; [contradiction|].
  apply hasUnit_cons_false in Hs as [Hc _].
  unfold parse.
  replace (JS.unit_eqb c0 CHAR_FORWARD_SLASH) with false
    by (symmetry; now apply unit_eqb_neq).
  rewrite andb_false_r. reflexivity.
Qed.

(** The name splits at its last dot, unless nothing stands before that dot
    or the name is exactly two dots. *)
Lemma split_at_last_dot (pre suf : jsstring) :
  hasUnit CHAR_FORWARD_SLASH pre = false ->
  hasUnit CHAR_FORWARD_SLASH suf = false ->
  hasUnit CHAR_DOT suf = false ->
  pre <> [] -> (suf <> [] \/ pre <> [CHAR_DOT]) ->
  extname (pre ++ CHAR_DOT :: suf) = CHAR_DOT :: suf /\
  name (parse (pre ++ CHAR_DOT :: suf)) = pre.
Proof.
  intros Hpre Hsuf Hdot Hne Hnot.
  pose proof (len_nonneg pre) as Hp. pose proof (len_nonneg suf) as Hq.
  assert (Hlen : JS.len pre <> 0).
  { destruct pre; [contradiction|]. rewrite len_cons.
    pose proof (len_nonneg pre). lia. }
  assert (Hno : noExtension
            (mkScan (JS.len pre) 0 (JS.len pre + 1 + JS.len suf) false
                    (preDotOf pre)) = false).
  { unfold noExtension; simpl.
    destruct (Z.eqb_spec (JS.len pre) (-1)); [lia|].
    destruct (preDotOf_cases pre Hne) as [E|E]; rewrite E; simpl; [|reflexivity].
    destruct (Z.eqb_spec (JS.len pre) (JS.len pre + 1 + JS.len suf - 1));
      [|reflexivity].
    destruct (Z.eqb_spec (JS.len pre) 1); [|reflexivity]. exfalso.
    assert (suf = []).
    { destruct suf as [|d suf']; [reflexivity|]. exfalso.
      rewrite len_cons in *. pose proof (len_nonneg suf'). lia. }
    destruct pre as [|c [|c' pre]]; try contradiction.
    - simpl in E. destruct (JS.unit_eqb c CHAR_DOT) eqn:Ec; [|discriminate].
      apply unit_eqb_eq in Ec. subst. destruct Hnot; contradiction.
    - rewrite !len_cons in *. pose proof (len_nonneg pre). lia. }
  assert (Hslice : JS.slice (pre ++ CHAR_DOT :: suf) (JS.len pre)
                     (JS.len pre + 1 + JS.len suf) = CHAR_DOT :: suf).
  { replace (JS.len pre + 1 + JS.len suf)
      with (JS.len pre + JS.len (CHAR_DOT :: suf)) by (rewrite len_cons; lia).
    apply slice_suffix. }
  split.
  - unfold extname. rewrite scan_last_dot by assumption. rewrite Hno.
    cbn [end_ startDot orb].
    destruct (Z.eqb_spec (JS.len pre + 1 + JS.len suf) (-1)); [lia|].
    exact Hslice.
  - rewrite parse_relative.
    + cbv zeta. rewrite scan_last_dot by assumption. rewrite Hno.
      cbn [end_ startDot startPart].
      destruct (Z.eqb_spec (JS.len pre + 1 + JS.len suf) (-1)); [lia|].
      cbn [negb name]. apply slice_prefix.
    + rewrite hasUnit_app. rewrite Hpre. simpl.
      change (JS.unit_eqb CHAR_FORWARD_SLASH CHAR_DOT) with false.
      exact Hsuf.
    + destruct pre; discriminate.
Qed.

(** A name that begins with its only dot has no extension. *)
Lemma leading_dot_only (suf : jsstring) :
  hasUnit CHAR_FORWARD_SLASH suf = false ->
  hasUnit CHAR_DOT suf = false ->
  extname (CHAR_DOT :: suf) = [] /\
  name (parse (CHAR_DOT :: suf)) = CHAR_DOT :: suf.
Proof.
  intros Hsuf Hdot.
  pose proof (scan_last_dot [] suf eq_refl Hsuf Hdot) as Hscan.
  simpl app in Hscan. change (JS.len []) with 0 in Hscan.
  change (preDotOf []) with 0 in Hscan.
  pose proof (len_nonneg suf) as Hq.
  split.
  - unfold extname. rewrite Hscan. reflexivity.
  - rewrite parse_relative.
    + cbv zeta. rewrite Hscan. cbn [end_ startDot startPart].
      destruct (Z.eqb_spec (0 + 1 + JS.len suf) (-1)); [lia|].
      cbn [negb]. change (noExtension _) with true. cbv iota. cbn [name].
      replace (0 + 1 + JS.len suf) with (JS.len (CHAR_DOT :: suf))
        by (rewrite len_cons; lia).
      rewrite <- (app_nil_r (CHAR_DOT :: suf)) at 1. apply slice_prefix.
    + simpl. change (JS.unit_eqb CHAR_FORWARD_SLASH CHAR_DOT) with false.
      exact Hsuf.
    + discriminate.
Qed.

(** A name without any dot has no extension. *)
Lemma no_dot_no_ext (p : jsstring) :
  hasUnit CHAR_FORWARD_SLASH p = false -> hasUnit CHAR_DOT p = false ->
  extname p = [] /\ name (parse p) = p.
Proof.
  intros Hs Hd. destruct p as [|c p]; [now split|].
  assert (Hne : c :: p <> []) by discriminate.
  pose proof (scan_no_dot _ Hs Hd Hne) as Hscan.
  pose proof (len_nonneg (c :: p)) as Hq.
  split.
  - unfold extname. rewrite Hscan. reflexivity.
  - rewrite parse_relative by assumption. cbv zeta. rewrite Hscan.
    cbn [end_ startDot startPart].
    destruct (Z.eqb_spec (JS.len (c :: p)) (-1)); [lia|].
    cbn [negb]. change (noExtension _) with true. cbv iota. cbn [name].
    rewrite <- (app_nil_r (c :: p)) at 1. apply slice_prefix.
Qed.

(** On a name without slash, [path.parse(...).name] and [path.extname]
    cut the name in two, and the extension holds at most its leading
    dot. *)
Lemma name_ext_partition (file : jsstring) :
  hasUnit CHAR_FORWARD_SLASH file = false ->
  name (parse file) ++ extname file = file /\
  hasUnit CHAR_DOT (tl (extname file)) = false.
Proof.
  intros Hs.
  destruct (last_dot_split file) as [Hd | (pre & suf & -> & Hd)].
  - destruct (no_dot_no_ext file Hs Hd) as [-> ->]. split; [apply app_nil_r|reflexivity].
  - rewrite hasUnit_app in Hs. apply orb_false_iff in Hs as [Hpre Hsuf].
    apply hasUnit_cons_false in Hsuf as [_ Hsuf].
    destruct pre as [|c pre].
    + destruct (leading_dot_only suf Hsuf Hd) as [He Hn].
      change ([] ++ CHAR_DOT :: suf) with (CHAR_DOT :: suf).
      rewrite He, Hn. split; [apply app_nil_r|reflexivity].
    + destruct suf as [|d suf].
      * destruct (jseqb_eq (c :: pre) [CHAR_DOT]) as [_ Hdec].
        destruct (JS.eqb (c :: pre) [CHAR_DOT]) eqn:E.
        -- apply jseqb_eq in E. rewrite E. now split.
        -- destruct (split_at_last_dot (c :: pre) [] Hpre eq_refl eq_refl)
             as [He Hn]; [discriminate| |].
           ++ right. intros E'. apply Hdec in E'. congruence.
           ++ rewrite He, Hn. now split.
      * destruct (split_at_last_dot (c :: pre) (d :: suf) Hpre Hsuf Hd)
          as [He Hn]; [discriminate|left; discriminate|].
        rewrite He, Hn. split; [reflexivity|exact Hd].
Qed.

(* ================================================================== *)
(** ** Facts about [path.join] *)

Arguments Path.norm_separator : simpl never.
Arguments Path.norm_unit : simpl never.

Lemma last_cons_default (c d : N) (units : list N) :
  last (c :: units) d = last units c.
Proof.
  revert c d. induction units as [|x units IH]; intros c d; [reflexivity|].
  change (last (c :: x :: units) d) with (last (x :: units) d).
  now rewrite !IH.
Qed.

(** The loop over a run of units that holds no separator. *)
Lemma norm_loop_run (p : jsstring) (a : bool) (units : list N) :
  forall rest i code st,
  hasUnit CHAR_FORWARD_SLASH units = false ->
  norm_loop p a (units ++ rest) i code st =
  norm_loop p a rest (i + JS.len units) (last units code) (norm_units units st).
Proof.
  induction units as [|c units IH]; intros rest i code st Hs.
  - simpl. now rewrite Z.add_0_r.
  - apply hasUnit_cons_false in Hs as [Hc Hs].
    cbn [app norm_loop].
    replace (isPosixPathSeparator c) with false
      by (symmetry; now apply unit_eqb_neq).
    rewrite IH by assumption. rewrite len_cons, last_cons_default.
    f_equal. lia.
Qed.

Lemma norm_units_fields (units : list N) : forall st,
  res (norm_units units st) = res st /\
  lastSegmentLength (norm_units units st) = lastSegmentLength st /\
  lastSlash (norm_units units st) = lastSlash st.
Proof.
  induction units as [|c units IH]; intros st; [now repeat split|].
  unfold norm_units in *. simpl fold_left.
  destruct (IH (norm_unit c st)) as (H1 & H2 & H3).
  rewrite H1, H2, H3. unfold norm_unit.
  destruct (JS.unit_eqb c CHAR_DOT && negb (dots st =? -1)); now repeat split.
Qed.

(** A run that ends with a unit other than a dot is an ordinary
    segment. *)
Lemma norm_units_ordinary (units : list N) (c : N) (st : Norm) :
  c <> CHAR_DOT ->
  norm_units (units ++ [c]) st =
  mkNorm (res st) (lastSegmentLength st) (lastSlash st) (-1).
Proof.
  intros Hc. unfold norm_units. rewrite fold_left_app. simpl.
  fold (norm_units units st).
  destruct (norm_units_fields units st) as (H1 & H2 & H3).
  unfold norm_unit.
  replace (JS.unit_eqb c CHAR_DOT) with false
    by (symmetry; now apply unit_eqb_neq).
  simpl. now rewrite H1, H2, H3.
Qed.

(** Closing an ordinary segment appends it to the result. *)
Lemma norm_separator_ordinary (p : jsstring) (a : bool) (i : Z) (r : jsstring)
    (l s : Z) :
  s <> i - 1 ->
  norm_separator p a i (mkNorm r l s (-1)) =
  mkNorm (if 0 <? JS.len r
          then r ++ JS.lit "/" ++ JS.slice p (s + 1) i
          else JS.slice p (s + 1) i)
         (i - s - 1) i 0.
Proof.
  intros Hs. unfold norm_separator. cbn [lastSlash dots res lastSegmentLength].
  destruct (Z.eqb_spec s (i - 1)); [contradiction|]. reflexivity.
Qed.

(** Closing a segment that is a single dot drops it. *)
Lemma norm_separator_dot (p : jsstring) (a : bool) (i : Z) (r : jsstring)
    (l s : Z) :
  norm_separator p a i (mkNorm r l s 1) = mkNorm r l i 0.
Proof.
  unfold norm_separator. cbn [lastSlash dots res lastSegmentLength].
  now rewrite orb_true_r.
Qed.

Lemma nth_error_last_unit (s : jsstring) (c : N) :
  JS.charCodeAt (s ++ [c]) (JS.len (s ++ [c]) - 1) = Some c.
Proof.
  unfold JS.charCodeAt. rewrite len_app. change (JS.len [c]) with 1.
  pose proof (len_nonneg s).
  destruct (Z.ltb_spec (JS.len s + 1 - 1) 0); [lia|].
  replace (JS.len s + 1 - 1) with (JS.len s) by lia.
  unfold JS.len. rewrite Nat2Z.id.
  rewrite nth_error_app2 by lia. now rewrite Nat.sub_diag.
Qed.

(** Joining a directory written [./d] with a file name: the result is
    [d/name]. The file name holds no slash and does not end with a dot. *)
Lemma join_dot_dir (d seg : jsstring) (c : N) :
  hasUnit CHAR_FORWARD_SLASH d = false ->
  hasUnit CHAR_FORWARD_SLASH seg = false ->
  c <> CHAR_FORWARD_SLASH -> c <> CHAR_DOT ->
  forall x d', d = d' ++ [x] -> x <> CHAR_DOT ->
  join [JS.lit "./" ++ d; seg ++ [c]] = d ++ JS.lit "/" ++ seg ++ [c].
Proof.
  intros Hd Hseg Hc Hc' x d' Ed Hx.
  pose proof (len_nonneg d') as Hd'. pose proof (len_nonneg seg) as Hq.
  assert (Hld : JS.len d = JS.len d' + 1) by (subst d; now rewrite len_app).
  assert (Hnu : forall st, norm_units d st =
            mkNorm (res st) (lastSegmentLength st) (lastSlash st) (-1)).
  { intros st. rewrite Ed. now apply norm_units_ordinary. }
  unfold join. cbn [join_loop].
  replace (0 <? JS.len (JS.lit "./" ++ d)) with true
    by (symmetry; apply Z.ltb_lt; rewrite len_app; change (JS.len (JS.lit "./")) with 2; lia).
  replace (0 <? JS.len (seg ++ [c])) with true
    by (symmetry; apply Z.ltb_lt; rewrite len_app; change (JS.len [c]) with 1; lia).
  set (p := (JS.lit "./" ++ d) ++ JS.lit "/" ++ seg ++ [c]).
  assert (Ep : p = [CHAR_DOT] ++ CHAR_FORWARD_SLASH :: d ++
                   CHAR_FORWARD_SLASH :: (seg ++ [c]) ++ []).
  { unfold p. rewrite app_nil_r. rewrite <- app_assoc. reflexivity. }
  assert (Elast : p = ((JS.lit "./" ++ d) ++ JS.lit "/" ++ seg) ++ [c]).
  { unfold p. now rewrite !app_assoc. }
  assert (Hlen : JS.len p = 2 + JS.len d + 1 + JS.len seg + 1).
  { unfold p. rewrite !len_app. change (JS.len (JS.lit "./")) with 2.
    change (JS.len (JS.lit "/")) with 1. change (JS.len [c]) with 1. lia. }
  assert (Hnorm : normalizeString p true = d ++ JS.lit "/" ++ seg ++ [c]).
  { unfold normalizeString. rewrite Ep at 2.
    rewrite norm_loop_run by reflexivity.
    change (JS.len [CHAR_DOT]) with 1.
    change (norm_units [CHAR_DOT] norm0) with (mkNorm [] 0 (-1) 1).
    cbn [norm_loop last].
    change (isPosixPathSeparator CHAR_FORWARD_SLASH) with true. cbv iota.
    rewrite norm_separator_dot.
    rewrite norm_loop_run by assumption.
    rewrite Hnu.
    cbn [res lastSegmentLength lastSlash norm_loop].
    change (isPosixPathSeparator CHAR_FORWARD_SLASH) with true. cbv iota.
    rewrite norm_separator_ordinary by lia.
    change (0 <? JS.len []) with false. cbv iota.
    rewrite norm_loop_run
      by (rewrite hasUnit_app, Hseg; simpl; rewrite orb_false_r;
          apply unit_eqb_neq; congruence).
    rewrite norm_units_ordinary by assumption.
    cbn [res lastSegmentLength lastSlash norm_loop].
    rewrite last_last.
    replace (isPosixPathSeparator c) with false
      by (symmetry; now apply unit_eqb_neq).
    rewrite norm_separator_ordinary
      by (rewrite len_app; change (JS.len [c]) with 1; lia).
    cbn [res].
    assert (S1 : JS.slice p (0 + 1 + 1) (0 + 1 + 1 + JS.len d) = d).
    { unfold p. rewrite <- !app_assoc.
      change (JS.lit "./" ++ d ++ JS.lit "/" ++ seg ++ [c])
        with (CHAR_DOT :: CHAR_FORWARD_SLASH :: d ++ JS.lit "/" ++ seg ++ [c]).
      rewrite slice_inside.
      - replace (0 + 1 + 1 + JS.len d - (0 + 1 + 1)) with (JS.len d) by lia.
        change (Z.to_nat (0 + 1 + 1)) with 2%nat.
        cbn [skipn]. unfold JS.len. rewrite Nat2Z.id.
        rewrite firstn_app, firstn_all, Nat.sub_diag. simpl. apply app_nil_r.
      - lia.
      - rewrite !len_cons, !len_app.
        pose proof (len_nonneg (JS.lit "/")). pose proof (len_nonneg [c]). lia. }
    rewrite S1.
    assert (S2 : JS.slice p (0 + 1 + 1 + JS.len d + 1)
                   (0 + 1 + 1 + JS.len d + 1 + JS.len (seg ++ [c])) = seg ++ [c]).
    { replace (0 + 1 + 1 + JS.len d + 1)
        with (JS.len ((JS.lit "./" ++ d) ++ JS.lit "/"))
        by (rewrite !len_app; change (JS.len (JS.lit "./")) with 2;
            change (JS.len (JS.lit "/")) with 1; lia).
      unfold p.
      replace ((JS.lit "./" ++ d) ++ JS.lit "/" ++ seg ++ [c])
        with (((JS.lit "./" ++ d) ++ JS.lit "/") ++ seg ++ [c])
        by (now rewrite <- !app_assoc).
      apply slice_suffix. }
    rewrite S2.
    replace (0 <? JS.len d) with true by (symmetry; apply Z.ltb_lt; lia).
    reflexivity. }
  unfold normalize.
  assert (Ehd : exists rest, p = CHAR_DOT :: rest) by (eexists; reflexivity).
  destruct Ehd as [rest Erest].
  destruct p as [|c0 p'] eqn:Epp; [discriminate|].
  injection Erest as -> ->.
  change (JS.unit_eqb CHAR_DOT CHAR_FORWARD_SLASH) with false. cbn [negb].
  rewrite Hnorm. rewrite Elast.
  rewrite nth_error_last_unit.
  replace (JS.unit_eqb c CHAR_FORWARD_SLASH) with false
    by (symmetry; now apply unit_eqb_neq).
  destruct d as [|y d'']; [destruct d'; discriminate|]. reflexivity.
Qed.

(** The output directory joined with a name that ends in [.mp4]. *)
Lemma join_output_mp4 (n : jsstring) :
  hasUnit CHAR_FORWARD_SLASH n = false ->
  join [outputDir constructor; n ++ JS.lit ".mp4"] =
  JS.lit "output/" ++ n ++ JS.lit ".mp4".
Proof.
  intros Hn.
  assert (Hseg : hasUnit CHAR_FORWARD_SLASH (n ++ JS.lit ".mp") = false)
    by (rewrite hasUnit_app, Hn; reflexivity).
  pose proof (join_dot_dir (JS.lit "output") (n ++ JS.lit ".mp") 52%N
                eq_refl Hseg ltac:(discriminate) ltac:(discriminate)
                116%N (JS.lit "outpu") eq_refl ltac:(discriminate)) as J.
  rewrite <- !app_assoc in J. exact J.
Qed.

(* ================================================================== *)
(** ** Facts about the methods *)

Section MethodFacts.

Context {host : Host}.

Lemma engineInvocations_app (t1 t2 : list Event) :
  engineInvocations (t1 ++ t2) = engineInvocations t1 ++ engineInvocations t2.
Proof.
  induction t1 as [|e t1 IH]; [reflexivity|].
  destruct e; simpl; now rewrite IH.
Qed.

(** The members of the recognized set are their own lower-case form. *)
Lemma toLowerCase_recognizedSet (e : jsstring) :
  In e recognizedSet -> toLowerCase e = e.
Proof.
  intros He. unfold recognizedSet in He. simpl in He.
  repeat destruct He as [<- | He];
    try (rewrite toLowerCase_ascii by reflexivity; reflexivity).
  contradiction.
Qed.

(** The filter of [getInputFiles] decides [Recognized]. *)
Lemma isSupported_Recognized (file : jsstring) :
  isSupported constructor file = true <-> Recognized file.
Proof.
  unfold isSupported, Recognized, sameIgnoringCase.
  change (supportedFormats constructor) with recognizedSet.
  rewrite includes_In. split.
  - intros Hin. exists (toLowerCase (extname file)). split; [assumption|].
    symmetry. now apply toLowerCase_recognizedSet.
  - intros (e & He & Heq). rewrite Heq.
    now rewrite toLowerCase_recognizedSet.
Qed.

(** An extension in any mix of ASCII letter cases passes the filter. *)
Lemma recognizedExt_lower (e : jsstring) :
  recognizedExt e -> toLowerCase e = JS.lowerAscii e /\
  exists suf, e = CHAR_DOT :: suf /\ suf <> [] /\
              hasUnit CHAR_DOT suf = false /\
              hasUnit CHAR_FORWARD_SLASH suf = false.
Proof.
  unfold recognizedExt. intros He.
  assert (Hascii : forallb JS.isAsciiUnit e = true).
  { assert (Hl : forallb (fun c => N.ltb c 123) (JS.lowerAscii e) = true).
    { unfold recognizedSet in He. simpl in He.
      repeat destruct He as [<- | He]; try reflexivity. contradiction. }
    unfold JS.lowerAscii in Hl. rewrite forallb_forall in Hl.
    apply forallb_forall. intros c Hc.
    specialize (Hl (JS.lowerAsciiUnit c) (in_map _ _ _ Hc)).
    unfold JS.isAsciiUnit. unfold JS.lowerAsciiUnit in Hl.
    apply N.ltb_lt. apply N.ltb_lt in Hl.
    destruct (N.leb_spec 65 c); destruct (N.leb_spec c 90); simpl in Hl; lia. }
  split; [now apply toLowerCase_ascii|].
  assert (Hshape : exists suf', JS.lowerAscii e = CHAR_DOT :: suf' /\
            suf' <> [] /\ hasUnit CHAR_DOT suf' = false /\
            hasUnit CHAR_FORWARD_SLASH suf' = false).
  { unfold recognizedSet in He. simpl in He.
    repeat destruct He as [<- | He];
      try (eexists; split; [reflexivity|];
           split; [discriminate|split; reflexivity]).
    contradiction. }
  destruct Hshape as (suf' & Hl & Hne & Hd & Hs).
  destruct e as [|c suf]; [discriminate|].
  unfold JS.lowerAscii in Hl. simpl in Hl. injection Hl as Hc Hsuf.
  apply (lowerAsciiUnit_fixes c CHAR_DOT) in Hc; [|reflexivity].
  exists suf. subst c. split; [reflexivity|].
  fold (JS.lowerAscii suf) in Hsuf. subst suf'.
  rewrite hasUnit_lowerAscii in Hd by reflexivity.
  rewrite hasUnit_lowerAscii in Hs by reflexivity.
  repeat split; try assumption.
  intros ->. now apply Hne.
Qed.

(** [forEach] over a body that only emits one event. *)
Lemma forEach_emit {A} (arr : list A) (g : A -> M unit) (ev : A -> Event)
    (w : World) :
  (forall x w', g x w' = (w', [ev x], Normal tt)) ->
  forEach arr g w = (w, map ev arr, Normal tt).
Proof.
  intros Hg. induction arr as [|x arr IH]; [reflexivity|].
  cbn [forEach]. unfold bind. rewrite Hg, IH. reflexivity.
Qed.

(** [forEach] over a body that only writes a console line. *)
Lemma forEach_log {A} (arr : list A) (f : A -> Message) (w : World) :
  forEach arr (fun x => console_log (f x)) w =
  (w, map (fun x => EvConsoleLog (f x)) arr, Normal tt).
Proof.
  induction arr as [|x arr IH]; [reflexivity|].
  cbn [forEach]. unfold bind. cbn. now rewrite IH.
Qed.

Lemma forEach_onNote (notes : list EngineNote) (w : World) :
  forEach notes onNote w = (w, noteEvents notes, Normal tt).
Proof.
  induction notes as [|n notes IH]; [reflexivity|].
  cbn [forEach]. unfold bind.
  destruct n as [c|[r|]]; cbn; rewrite IH; reflexivity.
Qed.

Lemma engineInvocations_notes (notes : list EngineNote) :
  engineInvocations (noteEvents notes) = [].
Proof.
  induction notes as [|n notes IH]; [reflexivity|].
  unfold noteEvents in *. simpl. rewrite engineInvocations_app, IH.
  destruct n as [c|[r|]]; reflexivity.
Qed.

(** What one call of [convertFile] does, by the terminal event of the
    engine. *)
Lemma convertFile_run (this : Converter) (file : jsstring) (w : World) :
  convertFile this file w =
  let r := ffmpegRun (inputPathOf this file) outputOptions
                     (outputPathOf this file) w in
  (fst r,
   [EvConsoleLog (MsgConverting file (outputFileNameOf file));
    EvFfmpeg (inputPathOf this file) outputOptions (outputPathOf this file)]
   ++ noteEvents (fst (snd r))
   ++ match snd (snd r) with
      | None => [EvConsoleLog (MsgConverted (outputFileNameOf file))]
      | Some err => [EvConsoleError (MsgConvertFailed file (message err))]
      end,
   match snd (snd r) with
   | None => Normal (outputPathOf this file)
   | Some err => Throw err
   end).
Proof.
  unfold convertFile, bind, ffmpeg_run, console_log, emit. cbv zeta.
  destruct (ffmpegRun _ _ _ w) as [w' [notes term]]. cbn [fst snd].
  rewrite forEach_onNote.
  destruct term as [err|]; cbn; rewrite ?app_nil_r; reflexivity.
Qed.

Lemma convertFile_invocation (this : Converter) (file : jsstring) (w : World) :
  engineInvocations (trace_of (convertFile this file w)) =
  [(inputPathOf this file, outputPathOf this file)].
Proof.
  rewrite convertFile_run. cbv zeta. unfold trace_of. cbn [fst snd].
  cbn [app engineInvocations]. rewrite engineInvocations_app.
  rewrite engineInvocations_notes.
  destruct (snd (snd _)); reflexivity.
Qed.

(** [getInputFiles] when the listing succeeds, and when it fails. *)
Lemma getInputFiles_listed (this : Converter) (w w' : World)
    (entries : list Dirent) :
  readdir (inputDir this) w = (w', inr entries) ->
  getInputFiles this w =
  (w', [EvReaddir (inputDir this)],
   Normal (filter (isSupported this) (map d_name entries))).
Proof.
  intros H. unfold getInputFiles, tryCatch, bind, fs_readdir. now rewrite H.
Qed.

Lemma getInputFiles_failed (this : Converter) (w w' : World) (err : JsError) :
  readdir (inputDir this) w = (w', inl err) ->
  getInputFiles this w =
  (w', [EvReaddir (inputDir this);
        EvConsoleError (MsgReadInputFailed (message err))],
   Normal []).
Proof.
  intros H. unfold getInputFiles, tryCatch, bind, fs_readdir. now rewrite H.
Qed.

(** [getInputFiles] always completes normally, lists the directory once
    and runs no conversion. *)
Lemma getInputFiles_total (this : Converter) (w : World) :
  exists files,
    completion_of (getInputFiles this w) = Normal files /\
    engineInvocations (trace_of (getInputFiles this w)) = [] /\
    fsReads (trace_of (getInputFiles this w)) = [inputDir this].
Proof.
  destruct (readdir (inputDir this) w) as [w' [err|entries]] eqn:H.
  - rewrite (getInputFiles_failed _ _ _ _ H). now eexists.
  - rewrite (getInputFiles_listed _ _ _ _ H). now eexists.
Qed.

(** One turn of the loop. *)
Lemma convertLoop_cons (this : Converter) (file : jsstring)
    (rest : list jsstring) (results : Results) (w : World) :
  convertLoop this (file :: rest) results w =
  let r := convertFile this file w in
  let results1 :=
    match completion_of r with
    | Normal outputPath =>
        mkResults (success results ++ [mkSuccess file outputPath])
                  (failed results)
    | Throw error =>
        mkResults (success results)
                  (failed results ++ [mkFailed file (message error)])
    end in
  let r2 := convertLoop this rest results1 (world_of r) in
  (world_of r2, trace_of r ++ trace_of r2, completion_of r2).
Proof.
  cbn [convertLoop]. unfold bind, tryCatch, ret. cbv zeta.
  unfold world_of, trace_of, completion_of.
  destruct (convertFile this file w) as [[w1 t1] [out|e]]; cbn [fst snd];
    destruct (convertLoop this rest _ w1) as [[w2 t2] c2]; cbn [fst snd];
    rewrite ?app_nil_r; reflexivity.
Qed.

(** The loop gives every file one result and one command. *)
Lemma convertLoop_results (this : Converter) (files : list jsstring) :
  forall (results : Results) (w : World),
  exists results',
    completion_of (convertLoop this files results w) = Normal results' /\
    (length (success results') + length (failed results') =
     length (success results) + length (failed results) + length files)%nat /\
    Permutation (map s_input (success results') ++ map f_input (failed results'))
                (map s_input (success results) ++ map f_input (failed results)
                 ++ files) /\
    engineInvocations (trace_of (convertLoop this files results w)) =
    map (fun f => (inputPathOf this f, outputPathOf this f)) files.
Proof.
  induction files as [|file rest IH]; intros results w.
  - exists results. simpl. repeat split; try lia.
    now rewrite app_nil_r.
  - rewrite convertLoop_cons. cbv zeta.
    pose proof (convertFile_invocation this file w) as Hinv.
    set (results1 := match completion_of (convertFile this file w) with
                     | Normal o => _ | Throw e => _ end).
    destruct (IH results1 (world_of (convertFile this file w)))
      as (r' & Hc & Hn & Hp & He).
    exists r'. unfold completion_of, trace_of, world_of in *.
    cbn [fst snd] in *.
    split; [exact Hc|].
    assert (Hstep :
      (length (success results1) + length (failed results1) =
       length (success results) + length (failed results) + 1)%nat /\
      Permutation
        (map s_input (success results1) ++ map f_input (failed results1) ++ rest)
        (map s_input (success results) ++ map f_input (failed results)
         ++ file :: rest)).
    { unfold results1.
      destruct (snd (convertFile this file w)) as [o|e];
        cbn [success failed]; rewrite length_app, map_app; cbn [length map];
        (split; [lia|]); rewrite <- !app_assoc.
      - apply Permutation_app_head. cbn [app]. apply Permutation_middle.
      - reflexivity. }
    destruct Hstep as [Hn1 Hp1].
    split; [cbn [length]; lia|]. split.
    + rewrite Hp. exact Hp1.
    + rewrite engineInvocations_app, Hinv, He. reflexivity.
Qed.

(** [convertAll] when nothing was enumerated. *)
Lemma convertAll_empty (this : Converter) (w : World) :
  completion_of (getInputFiles this w) = Normal [] ->
  convertAll this w =
  (world_of (getInputFiles this w),
   EvConsoleLog MsgBatchStart :: trace_of (getInputFiles this w)
   ++ [EvConsoleLog MsgNoFiles; EvConsoleLog (MsgPutFilesHint (inputDir this))],
   Normal tt).
Proof.
  unfold convertAll, bind, console_log, emit, completion_of, world_of, trace_of.
  destruct (getInputFiles this w) as [[w1 t1] c1]. cbn [fst snd].
  intros ->. reflexivity.
Qed.

(** [convertAll] when at least one file was enumerated. *)
Lemma convertAll_batch (this : Converter) (w : World) (files : list jsstring)
    (results : Results) :
  completion_of (getInputFiles this w) = Normal files -> files <> [] ->
  completion_of (convertLoop this files (mkResults [] [])
                   (world_of (getInputFiles this w))) = Normal results ->
  convertAll this w =
  (world_of (convertLoop this files (mkResults [] [])
               (world_of (getInputFiles this w))),
   EvConsoleLog MsgBatchStart :: trace_of (getInputFiles this w)
   ++ EvConsoleLog (MsgFound (JS.alen files))
   :: map (fun file => EvConsoleLog (MsgFileItem file)) files
   ++ trace_of (convertLoop this files (mkResults [] [])
                  (world_of (getInputFiles this w)))
   ++ summaryEvents results,
   Normal tt).
Proof.
  unfold convertAll, completion_of, world_of, trace_of.
  unfold bind at 1. unfold console_log at 1, emit at 1.
  unfold bind at 1.
  destruct (getInputFiles this w) as [[w1 t1] c1]. cbn [fst snd].
  intros -> Hne.
  destruct files as [|f files]; [contradiction|].
  change (JS.alen (f :: files) =? 0) with false. cbv iota.
  unfold bind at 1. unfold console_log at 1, emit at 1.
  unfold bind at 1. rewrite forEach_log.
  unfold bind at 1.
  destruct (convertLoop this (f :: files) _ w1) as [[w2 t2] c2]. cbn [fst snd].
  intros ->.
  unfold summaryEvents.
  destruct (0 <? JS.alen (failed results));
    cbv beta iota zeta delta [bind console_log emit ret].
  - rewrite (forEach_emit (failed results) _
               (fun item => EvConsoleLog
                              (MsgFailedItem (f_input item) (f_error item))))
      by reflexivity.
    cbn [app]. rewrite <- ?app_assoc. reflexivity.
  - cbn [app]. rewrite <- ?app_assoc. reflexivity.
Qed.

Lemma Permutation_filter {A} (f : A -> bool) (l l' : list A) :
  Permutation l l' -> Permutation (filter f l) (filter f l').
Proof.
  induction 1 as [|x l l' _ IH|x y l|l l' l'' _ IH1 _ IH2]; simpl.
  - constructor.
  - destruct (f x); [now constructor | assumption].
  - destruct (f x), (f y); try reflexivity. apply perm_swap.
  - now transitivity (filter f l').
Qed.

(** Everything [getInputFiles] returns passed the filter and was in the
    listing. *)
Lemma getInputFiles_sound (this : Converter) (w : World)
    (files : list jsstring) :
  completion_of (getInputFiles this w) = Normal files ->
  forall f, In f files -> isSupported this f = true.
Proof.
  destruct (readdir (inputDir this) w) as [w' [err|entries]] eqn:H.
  - rewrite (getInputFiles_failed _ _ _ _ H). unfold completion_of. simpl.
    intros E. injection E as <-. contradiction.
  - rewrite (getInputFiles_listed _ _ _ _ H). unfold completion_of. simpl.
    intros E. injection E as <-. intros f Hf. now apply filter_In in Hf.
Qed.

(** [getInputFiles] writes no report of a conversion. *)
Lemma getInputFiles_no_report (this : Converter) (w : World) :
  filter isSuccessReport (trace_of (getInputFiles this w)) = [] /\
  filter isFailureReport (trace_of (getInputFiles this w)) = [] /\
  fsWrites (trace_of (getInputFiles this w)) = [].
Proof.
  destruct (readdir (inputDir this) w) as [w' [err|entries]] eqn:H.
  - rewrite (getInputFiles_failed _ _ _ _ H). now repeat split.
  - rewrite (getInputFiles_listed _ _ _ _ H). now repeat split.
Qed.

(** [checkFFmpeg] by the answer of the probe. *)
Lemma checkFFmpeg_run (this : Converter) (w : World) :
  checkFFmpeg this w =
  (fst (getAvailableCodecs w),
   EvGetAvailableCodecs ::
   match snd (getAvailableCodecs w) with
   | Some _ => [EvConsoleError MsgFfmpegMissing; EvConsoleLog MsgInstallHint]
   | None => [EvConsoleLog MsgFfmpegInstalled]
   end,
   Normal match snd (getAvailableCodecs w) with
          | Some _ => false
          | None => true
          end).
Proof.
  unfold checkFFmpeg, bind, ffmpeg_getAvailableCodecs.
  destruct (getAvailableCodecs w) as [w' [err|]]; reflexivity.
Qed.

(** [createDirectories] never throws. *)
Lemma createDirectories_total (this : Converter) (w : World) :
  completion_of (createDirectories this w) = Normal tt /\
  engineInvocations (trace_of (createDirectories this w)) = [].
Proof.
  unfold createDirectories, tryCatch, bind, fs_ensureDir, console_log,
    console_error, emit, completion_of, trace_of.
  destruct (ensureDir (inputDir this) w) as [w1 [e1|]]; [now split|].
  destruct (ensureDir (outputDir this) w1) as [w2 [e2|]]; now split.
Qed.

Lemma engineInvocations_logs {A} (f : A -> Message) (l : list A) :
  engineInvocations (map (fun x => EvConsoleLog (f x)) l) = [].
Proof. induction l as [|x l IH]; [reflexivity|exact IH]. Qed.

Lemma engineInvocations_summary (results : Results) :
  engineInvocations (summaryEvents results) = [].
Proof.
  unfold summaryEvents. cbn [app engineInvocations].
  destruct (0 <? JS.alen (failed results)); [|reflexivity].
  cbn [engineInvocations].
  apply (engineInvocations_logs
           (fun item => MsgFailedItem (f_input item) (f_error item))).
Qed.

(** [convertAll] begins by listing the input directory. *)
Lemma convertAll_lists_input (this : Converter) (w : World) :
  exists rest,
    trace_of (convertAll this w) =
    EvConsoleLog MsgBatchStart :: EvReaddir (inputDir this) :: rest.
Proof.
  assert (Hhead : exists t, trace_of (getInputFiles this w) =
                            EvReaddir (inputDir this) :: t).
  { destruct (readdir (inputDir this) w) as [w' [err|entries]] eqn:H.
    - rewrite (getInputFiles_failed _ _ _ _ H). now eexists.
    - rewrite (getInputFiles_listed _ _ _ _ H). now eexists. }
  destruct Hhead as [t Ht].
  destruct (getInputFiles_total this w) as (files & Hfiles & _).
  destruct files as [|f files'].
  - rewrite (convertAll_empty this w Hfiles). unfold trace_of at 1.
    cbn [fst snd]. rewrite Ht. now eexists.
  - destruct (convertLoop_results this (f :: files') (mkResults [] [])
                (world_of (getInputFiles this w))) as (results & Hres & _).
    rewrite (convertAll_batch this w _ results Hfiles ltac:(discriminate) Hres).
    unfold trace_of at 1. cbn [fst snd]. rewrite Ht. now eexists.
Qed.

(** [run] once the probe has answered that the engine is there. *)
Lemma run_engine_present (this : Converter) (w w1 : World) :
  getAvailableCodecs w = (w1, None) ->
  run this w =
  (world_of (convertAll this (world_of (createDirectories this w1))),
   [EvConsoleLog MsgBanner; EvConsoleLog MsgRule; EvGetAvailableCodecs;
    EvConsoleLog MsgFfmpegInstalled]
   ++ trace_of (createDirectories this w1)
   ++ trace_of (convertAll this (world_of (createDirectories this w1))),
   completion_of (convertAll this (world_of (createDirectories this w1)))).
Proof.
  intros H. unfold run. unfold bind at 1. unfold console_log at 1, emit at 1.
  unfold bind at 1. unfold console_log at 1, emit at 1.
  unfold bind at 1. rewrite checkFFmpeg_run, H. cbn [fst snd negb].
  unfold bind.
  destruct (createDirectories_total this w1) as [Hc _].
  unfold completion_of, world_of, trace_of in *.
  destruct (createDirectories this w1) as [[w2 t2] c2]. cbn [fst snd] in *.
  subst c2.
  destruct (convertAll this w2) as [[w3 t3] c3]. reflexivity.
Qed.

End MethodFacts.

(* ================================================================== *)
(** ** The properties of the specification *)

Section Properties.

Context {host : Host}.

(** C1. Whatever files are enumerated and however the engine answers on
    each of them, [convertAll] completes normally, hands every enumerated
    file to the engine exactly once and in order, and the loop records
    exactly one result per file: the inputs of the successes and of the
    failures together are the enumerated files, so the two counts add up
    to their number; when the enumeration is not empty these are the
    counts printed in the summary. A failure does not stop the loop. *)
Theorem convertAll_one_result_per_file (this : Converter) (w : World) :
  exists files results,
    completion_of (getInputFiles this w) = Normal files /\
    completion_of (convertLoop this files (mkResults [] [])
                     (world_of (getInputFiles this w))) = Normal results /\
    Permutation (map s_input (success results) ++ map f_input (failed results))
                files /\
    JS.alen (success results) + JS.alen (failed results) = JS.alen files /\
    engineInvocations (trace_of (convertAll this w)) =
      map (fun f => (inputPathOf this f, outputPathOf this f)) files /\
    completion_of (convertAll this w) = Normal tt /\
    (files <> [] ->
     exists before,
       trace_of (convertAll this w) = before ++ summaryEvents results).
Proof.
  destruct (getInputFiles_total this w) as (files & Hfiles & Hnone & _).
  destruct (convertLoop_results this files (mkResults [] [])
              (world_of (getInputFiles this w)))
    as (results & Hres & Hlen & Hperm & Hinv).
  exists files, results. cbn [success failed length map app] in *.
  split; [assumption|]. split; [assumption|]. split; [assumption|].
  split; [unfold JS.alen; lia|].
  destruct files as [|f files'].
  - rewrite (convertAll_empty this w Hfiles). unfold trace_of, completion_of.
    cbn [fst snd]. cbn [engineInvocations].
    rewrite engineInvocations_app.
    unfold trace_of in Hnone. rewrite Hnone.
    split; [reflexivity|]. split; [reflexivity|]. intros H. now contradiction H.
  - assert (Hne : f :: files' <> []) by discriminate.
    rewrite (convertAll_batch this w _ results Hfiles Hne Hres).
    unfold trace_of, completion_of in *. cbn [fst snd].
    split.
    + cbn [engineInvocations]. rewrite engineInvocations_app, Hnone.
      cbn [app engineInvocations]. rewrite engineInvocations_app.
      rewrite engineInvocations_logs. cbn [app].
      rewrite engineInvocations_app, Hinv, engineInvocations_summary.
      apply app_nil_r.
    + split; [reflexivity|]. intros _.
      eexists. rewrite !app_comm_cons, !app_assoc. reflexivity.
Qed.

(** C4. When the probe of the engine fails, [run] prints its diagnostic
    and returns: the whole trace is the banner, the probe and the two
    diagnostic lines; no directory is created, none is listed and no
    conversion is started. *)
Theorem run_stops_without_engine (this : Converter) (w w' : World)
    (err : JsError) :
  getAvailableCodecs w = (w', Some err) ->
  run this w =
    (w',
     [EvConsoleLog MsgBanner; EvConsoleLog MsgRule; EvGetAvailableCodecs;
      EvConsoleError MsgFfmpegMissing; EvConsoleLog MsgInstallHint],
     Normal tt) /\
  fsWrites (trace_of (run this w)) = [] /\
  fsReads (trace_of (run this w)) = [] /\
  engineInvocations (trace_of (run this w)) = [].
Proof.
  intros H.
  assert (Hrun : run this w =
    (w',
     [EvConsoleLog MsgBanner; EvConsoleLog MsgRule; EvGetAvailableCodecs;
      EvConsoleError MsgFfmpegMissing; EvConsoleLog MsgInstallHint],
     Normal tt)).
  { unfold run. unfold bind at 1. unfold console_log at 1, emit at 1.
    unfold bind at 1. unfold console_log at 1, emit at 1.
    unfold bind at 1. rewrite checkFFmpeg_run, H. reflexivity. }
  rewrite Hrun. now repeat split.
Qed.

(** C5. When the enumeration is empty, [convertAll] says that nothing was
    found and returns normally: no command is handed to the engine and no
    success or failure is reported. *)
Theorem convertAll_nothing_to_do (this : Converter) (w : World) :
  completion_of (getInputFiles this w) = Normal [] ->
  engineInvocations (trace_of (convertAll this w)) = [] /\
  filter isSuccessReport (trace_of (convertAll this w)) = [] /\
  filter isFailureReport (trace_of (convertAll this w)) = [] /\
  completion_of (convertAll this w) = Normal tt /\
  trace_of (convertAll this w) =
    EvConsoleLog MsgBatchStart :: trace_of (getInputFiles this w)
    ++ [EvConsoleLog MsgNoFiles; EvConsoleLog (MsgPutFilesHint (inputDir this))].
Proof.
  intros H. rewrite (convertAll_empty this w H).
  destruct (getInputFiles_total this w) as (files & _ & Hnone & _).
  destruct (getInputFiles_no_report this w) as (Hs & Hf & _).
  unfold trace_of, completion_of in *. cbn [fst snd].
  cbn [engineInvocations filter isSuccessReport isFailureReport].
  rewrite engineInvocations_app, !filter_app, Hnone, Hs, Hf.
  now repeat split.
Qed.

(** C6. When reading the input directory fails, [getInputFiles] writes
    the error to the console and returns the empty list; it does not
    throw. *)
Theorem getInputFiles_read_error (this : Converter) (w w' : World)
    (err : JsError) :
  readdir (inputDir this) w = (w', inl err) ->
  getInputFiles this w =
    (w',
     [EvReaddir (inputDir this);
      EvConsoleError (MsgReadInputFailed (message err))],
     Normal []).
Proof.
  intros H. unfold getInputFiles, tryCatch, bind, fs_readdir.
  rewrite H. reflexivity.
Qed.

(** C7. When the engine is there and a directory cannot be created,
    [createDirectories] writes the error to the console and completes
    normally, and [run] goes on with [convertAll]: the input directory is
    listed, and whatever [convertAll] does follows. *)
Theorem run_continues_after_workspace_error (this : Converter)
    (w w1 w2 : World) (err : JsError) :
  getAvailableCodecs w = (w1, None) ->
  workspaceFails this w1 w2 err ->
  completion_of (createDirectories this w1) = Normal tt /\
  world_of (createDirectories this w1) = w2 /\
  In (EvConsoleError (MsgCreateDirsFailed (message err)))
     (trace_of (createDirectories this w1)) /\
  run this w =
    (world_of (convertAll this w2),
     [EvConsoleLog MsgBanner; EvConsoleLog MsgRule; EvGetAvailableCodecs;
      EvConsoleLog MsgFfmpegInstalled]
     ++ trace_of (createDirectories this w1)
     ++ trace_of (convertAll this w2),
     completion_of (convertAll this w2)) /\
  In (EvReaddir (inputDir this)) (trace_of (run this w)).
Proof.
  intros Hprobe Hfail.
  assert (Hcreate : completion_of (createDirectories this w1) = Normal tt /\
            world_of (createDirectories this w1) = w2 /\
            In (EvConsoleError (MsgCreateDirsFailed (message err)))
               (trace_of (createDirectories this w1)) /\
            fsReads (trace_of (createDirectories this w1)) = []).
  { unfold createDirectories, tryCatch, bind, fs_ensureDir, console_log,
      console_error, emit, completion_of, world_of, trace_of.
    destruct Hfail as [H1 | (w1' & H1 & H2)].
    - rewrite H1. cbn. repeat split. right. now left.
    - rewrite H1, H2. cbn. repeat split. right. right. now left. }
  destruct Hcreate as (Hc & Hw & Hin & Hr).
  rewrite (run_engine_present this w w1 Hprobe). rewrite Hw.
  repeat split; try assumption.
  unfold trace_of at 1. cbn [fst snd].
  destruct (convertAll_lists_input this w2) as [rest ->].
  cbn [app]. right. right. right. right. apply in_or_app. right.
  right. now left.
Qed.

(** C2. When the listing of the input directory splits into [N] entries
    whose extension is, ignoring case, in the recognized set and [M]
    entries whose extension is not, [getInputFiles] returns the [N]
    recognized entries, and none of the [M] others. *)
Theorem getInputFiles_keeps_recognized (w w' : World) (entries : list Dirent)
    (recognized others : list jsstring) :
  readdir (inputDir constructor) w = (w', inr entries) ->
  Permutation (map d_name entries) (recognized ++ others) ->
  Forall Recognized recognized ->
  Forall (fun f => ~ Recognized f) others ->
  exists files,
    completion_of (getInputFiles constructor w) = Normal files /\
    Permutation files recognized /\
    length files = length recognized /\
    (forall f, In f others -> ~ In f files).
Proof.
  intros Hread Hperm Hrec Hoth.
  rewrite (getInputFiles_listed _ _ _ _ Hread).
  eexists. split; [reflexivity|].
  assert (Hfilter : Permutation
            (filter (isSupported constructor) (map d_name entries)) recognized).
  { rewrite (Permutation_filter _ _ _ Hperm), filter_app.
    assert (H1 : filter (isSupported constructor) recognized = recognized).
    { apply forallb_filter_id. apply forallb_forall. intros f Hf.
      apply isSupported_Recognized. rewrite Forall_forall in Hrec. auto. }
    assert (H2 : filter (isSupported constructor) others = []).
    { clear Hperm. induction others as [|f others IH]; [reflexivity|].
      inversion Hoth as [|? ? Hf Hrest]; subst. simpl.
      destruct (isSupported constructor f) eqn:E.
      - exfalso. apply Hf. now apply isSupported_Recognized.
      - now apply IH. }
    rewrite H1, H2. now rewrite app_nil_r. }
  split; [exact Hfilter|]. split; [now apply Permutation_length|].
  intros f Hf Hin. apply filter_In in Hin as [_ Hs].
  apply isSupported_Recognized in Hs.
  rewrite Forall_forall in Hoth. exact (Hoth f Hf Hs).
Qed.

(** C3. For a file [name ++ ext] where [name] is not empty and holds no
    slash and [ext] is a recognized extension in any letter case, the
    output path of [convertFile] is [name ++ ".mp4"] joined to the output
    directory, that is [output/name.mp4], whatever [ext] is; this is the
    path handed to the engine. *)
Theorem convertFile_output_path (name ext : jsstring) (w : World) :
  name <> [] -> hasUnit CHAR_FORWARD_SLASH name = false ->
  recognizedExt ext ->
  isSupported constructor (name ++ ext) = true /\
  outputPathOf constructor (name ++ ext) =
    Path.join [outputDir constructor; name ++ JS.lit ".mp4"] /\
  outputPathOf constructor (name ++ ext) =
    JS.lit "output/" ++ name ++ JS.lit ".mp4" /\
  engineInvocations (trace_of (convertFile constructor (name ++ ext) w)) =
    [(inputPathOf constructor (name ++ ext),
      JS.lit "output/" ++ name ++ JS.lit ".mp4")].
Proof.
  intros Hne Hs Hext.
  destruct (recognizedExt_lower ext Hext)
    as (Hlow & suf & -> & Hsuf & Hdot & Hslash).
  destruct (split_at_last_dot name suf Hs Hslash Hdot Hne (or_introl Hsuf))
    as [He Hn].
  assert (Hname : outputFileNameOf (name ++ CHAR_DOT :: suf) =
                  name ++ JS.lit ".mp4").
  { unfold outputFileNameOf. now rewrite Hn. }
  assert (Hjoin : Path.join [outputDir constructor; name ++ JS.lit ".mp4"] =
                  JS.lit "output/" ++ name ++ JS.lit ".mp4").
  { now apply join_output_mp4. }
  assert (Hout : outputPathOf constructor (name ++ CHAR_DOT :: suf) =
                 JS.lit "output/" ++ name ++ JS.lit ".mp4").
  { unfold outputPathOf. now rewrite Hname. }
  split.
  - unfold isSupported. rewrite He, Hlow. apply includes_In. exact Hext.
  - split; [unfold outputPathOf; now rewrite Hname|].
    split; [exact Hout|].
    rewrite convertFile_invocation. now rewrite Hout.
Qed.

(** C8, as the code has it. The kind of an entry is never looked at: an
    entry of the listing that is a directory is returned exactly when the
    extension of its name is recognized, and is left out otherwise. *)
Theorem getInputFiles_ignores_entry_kind (w w' : World)
    (entries : list Dirent) (e : Dirent) (files : list jsstring) :
  readdir (inputDir constructor) w = (w', inr entries) ->
  In e entries -> d_isDirectory e = true ->
  completion_of (getInputFiles constructor w) = Normal files ->
  (In (d_name e) files <-> Recognized (d_name e)).
Proof.
  intros Hread Hin _ Hfiles.
  rewrite (getInputFiles_listed _ _ _ _ Hread) in Hfiles.
  unfold completion_of in Hfiles. cbn [snd] in Hfiles.
  injection Hfiles as <-.
  rewrite filter_In, isSupported_Recognized. split.
  - now intros [_ H].
  - intros H. split; [|exact H]. now apply in_map.
Qed.

(** C9. A name that is nothing but a recognized extension, in any letter
    case, has no extension for [path.extname]; it does not pass the filter
    and [getInputFiles] never returns it. *)
Theorem getInputFiles_skips_bare_extension (name : jsstring) (w : World)
    (files : list jsstring) :
  recognizedExt name ->
  completion_of (getInputFiles constructor w) = Normal files ->
  Path.extname name = [] /\
  isSupported constructor name = false /\
  ~ In name files.
Proof.
  intros Hext Hfiles.
  destruct (recognizedExt_lower name Hext)
    as (_ & suf & -> & _ & Hdot & Hslash).
  destruct (leading_dot_only suf Hslash Hdot) as [He _].
  assert (Hs : isSupported constructor (CHAR_DOT :: suf) = false).
  { unfold isSupported. rewrite He.
    rewrite toLowerCase_ascii by reflexivity. reflexivity. }
  split; [exact He|]. split; [exact Hs|].
  intros Hin. apply (getInputFiles_sound _ _ _ Hfiles) in Hin. congruence.
Qed.

(** C10. For a file name cut at its last dot into [pre] and [suf], with
    [pre] not empty (it holds every other dot of the name), [convertFile]
    strips [suf] and that dot only: the output name is [pre ++ ".mp4"],
    placed in the output directory; [a.b.webm] gives [a.b.mp4]. *)
Theorem convertFile_strips_last_extension (pre suf : jsstring) (w : World) :
  hasUnit CHAR_FORWARD_SLASH pre = false ->
  hasUnit CHAR_FORWARD_SLASH suf = false ->
  hasUnit CHAR_DOT suf = false ->
  pre <> [] -> (suf <> [] \/ pre <> [CHAR_DOT]) ->
  outputFileNameOf (pre ++ CHAR_DOT :: suf) = pre ++ JS.lit ".mp4" /\
  engineInvocations
    (trace_of (convertFile constructor (pre ++ CHAR_DOT :: suf) w)) =
    [(inputPathOf constructor (pre ++ CHAR_DOT :: suf),
      JS.lit "output/" ++ pre ++ JS.lit ".mp4")] /\
  outputFileNameOf (JS.lit "a.b.webm") = JS.lit "a.b.mp4".
Proof.
  intros Hpre Hsuf Hdot Hne Hnot.
  destruct (split_at_last_dot pre suf Hpre Hsuf Hdot Hne Hnot) as [_ Hn].
  assert (Hname : outputFileNameOf (pre ++ CHAR_DOT :: suf) =
                  pre ++ JS.lit ".mp4").
  { unfold outputFileNameOf. now rewrite Hn. }
  split; [exact Hname|]. split; [|reflexivity].
  rewrite convertFile_invocation. unfold outputPathOf. rewrite Hname.
  now rewrite join_output_mp4.
Qed.

End Properties.

(* ================================================================== *)
(** ** The properties on scripted runs *)

Module Runs.

Import Scripted.

(** The examples of the Node.js documentation of [path]. *)
Example extname_documented :
  Path.extname (JS.lit "index.html") = JS.lit ".html" /\
  Path.extname (JS.lit "index.coffee.md") = JS.lit ".md" /\
  Path.extname (JS.lit "index.") = JS.lit "." /\
  Path.extname (JS.lit "index") = [] /\
  Path.extname (JS.lit ".index") = [] /\
  Path.extname (JS.lit ".index.md") = JS.lit ".md".
Proof. repeat split; reflexivity. Qed.

Example parse_documented :
  Path.parse (JS.lit "/home/user/dir/file.txt") =
  Path.mkParsed (JS.lit "/") (JS.lit "/home/user/dir") (JS.lit "file.txt")
                (JS.lit ".txt") (JS.lit "file").
Proof. reflexivity. Qed.

Example join_documented :
  Path.join [JS.lit "/foo"; JS.lit "bar"; JS.lit "baz/asdf"; JS.lit "quux";
             JS.lit ".."] = JS.lit "/foo/bar/baz/asdf" /\
  Path.normalize (JS.lit "/foo/bar//baz/asdf/quux/..") =
    JS.lit "/foo/bar/baz/asdf" /\
  Path.join [JS.lit "./input"; JS.lit "clip.webm"] = JS.lit "input/clip.webm".
Proof. repeat split; reflexivity. Qed.

(** The scenario of the specification: one success, one failure, and the
    run completes normally. *)
Example scenario_results :
  completion_of
    (@convertLoop (hostOf scenario) constructor
       [JS.lit "clip.webm"; JS.lit "broken.mkv"] (mkResults [] []) 4%nat) =
  Normal (mkResults
            [mkSuccess (JS.lit "clip.webm") (JS.lit "output/clip.mp4")]
            [mkFailed (JS.lit "broken.mkv") (JS.lit "invalid frame")]) /\
  completion_of (@run (hostOf scenario) constructor 0%nat) = Normal tt /\
  engineInvocations (trace_of (@run (hostOf scenario) constructor 0%nat)) =
    [(JS.lit "input/clip.webm", JS.lit "output/clip.mp4");
     (JS.lit "input/broken.mkv", JS.lit "output/broken.mp4")] /\
  filter isSuccessReport (trace_of (@run (hostOf scenario) constructor 0%nat)) =
    [EvConsoleLog (MsgConverted (JS.lit "clip.mp4"));
     EvConsoleLog (MsgSuccessCount 1)] /\
  filter isFailureReport (trace_of (@run (hostOf scenario) constructor 0%nat)) =
    [EvConsoleError (MsgConvertFailed (JS.lit "broken.mkv")
                       (JS.lit "invalid frame"));
     EvConsoleLog (MsgFailedCount 1);
     EvConsoleLog (MsgFailedItem (JS.lit "broken.mkv")
                     (JS.lit "invalid frame"))].
Proof. repeat split; reflexivity. Qed.

(** C2 on the scenario of the specification: of [clip.webm], [notes.txt]
    and [broken.mkv], the two videos are returned. *)
Lemma getInputFiles_keeps_recognized_witness :
  exists files,
    completion_of (@getInputFiles (hostOf scenario) constructor 0%nat)
      = Normal files /\
    Permutation files [JS.lit "clip.webm"; JS.lit "broken.mkv"] /\
    length files = 2%nat /\
    (forall f, In f [JS.lit "notes.txt"] -> ~ In f files).
Proof.
  apply (@getInputFiles_keeps_recognized (hostOf scenario) 0%nat 1%nat
           [file "clip.webm"; file "notes.txt"; file "broken.mkv"]
           [JS.lit "clip.webm"; JS.lit "broken.mkv"] [JS.lit "notes.txt"]).
  - reflexivity.
  - simpl. apply perm_skip. apply perm_swap.
  - repeat constructor.
    + exists (JS.lit ".webm"). split; [simpl; tauto | reflexivity].
    + exists (JS.lit ".mkv"). split; [simpl; tauto | reflexivity].
  - repeat constructor. intros (e & He & Heq). simpl in He.
    repeat destruct He as [<- | He]; try discriminate Heq. exact He.
Defined.

(** C3 on [Clip.WebM]. *)
Lemma convertFile_output_path_witness :
  isSupported (host := hostOf scenario) constructor (JS.lit "Clip.WebM") = true /\
  outputPathOf constructor (JS.lit "Clip.WebM") =
    Path.join [outputDir constructor; JS.lit "Clip.mp4"] /\
  outputPathOf constructor (JS.lit "Clip.WebM") = JS.lit "output/Clip.mp4" /\
  engineInvocations
    (trace_of (@convertFile (hostOf scenario) constructor
                 (JS.lit "Clip.WebM") 0%nat)) =
    [(inputPathOf constructor (JS.lit "Clip.WebM"), JS.lit "output/Clip.mp4")].
Proof.
  apply (@convertFile_output_path (hostOf scenario)
           (JS.lit "Clip") (JS.lit ".WebM") 0%nat).
  - discriminate.
  - reflexivity.
  - unfold recognizedExt. simpl. tauto.
Defined.

(** C4 with no engine installed. *)
Lemma run_stops_without_engine_witness :
  @run (hostOf noEngine) constructor 0%nat =
    (1%nat,
     [EvConsoleLog MsgBanner; EvConsoleLog MsgRule; EvGetAvailableCodecs;
      EvConsoleError MsgFfmpegMissing; EvConsoleLog MsgInstallHint],
     Normal tt) /\
  fsWrites (trace_of (@run (hostOf noEngine) constructor 0%nat)) = [] /\
  fsReads (trace_of (@run (hostOf noEngine) constructor 0%nat)) = [] /\
  engineInvocations (trace_of (@run (hostOf noEngine) constructor 0%nat)) = [].
Proof.
  apply (@run_stops_without_engine (hostOf noEngine) constructor 0%nat 1%nat
           (err "Cannot find ffmpeg")).
  reflexivity.
Defined.

(** C5 when the input directory cannot be read. *)
Lemma convertAll_nothing_to_do_witness :
  engineInvocations
    (trace_of (@convertAll (hostOf noWorkspace) constructor 0%nat)) = [] /\
  filter isSuccessReport
    (trace_of (@convertAll (hostOf noWorkspace) constructor 0%nat)) = [] /\
  filter isFailureReport
    (trace_of (@convertAll (hostOf noWorkspace) constructor 0%nat)) = [] /\
  completion_of (@convertAll (hostOf noWorkspace) constructor 0%nat)
    = Normal tt /\
  trace_of (@convertAll (hostOf noWorkspace) constructor 0%nat) =
    EvConsoleLog MsgBatchStart
    :: trace_of (@getInputFiles (hostOf noWorkspace) constructor 0%nat)
    ++ [EvConsoleLog MsgNoFiles;
        EvConsoleLog (MsgPutFilesHint (inputDir constructor))].
Proof.
  apply (@convertAll_nothing_to_do (hostOf noWorkspace) constructor 0%nat).
  reflexivity.
Defined.

(** C6 when the input directory does not exist. *)
Lemma getInputFiles_read_error_witness :
  @getInputFiles (hostOf noWorkspace) constructor 0%nat =
    (1%nat,
     [EvReaddir (JS.lit "./input");
      EvConsoleError (MsgReadInputFailed (JS.lit "ENOENT"))],
     Normal []).
Proof.
  apply (@getInputFiles_read_error (hostOf noWorkspace) constructor 0%nat
           1%nat (err "ENOENT")).
  reflexivity.
Defined.

(** C7 when the input directory cannot be created. *)
Lemma run_continues_after_workspace_error_witness :
  completion_of (@createDirectories (hostOf noWorkspace) constructor 1%nat)
    = Normal tt /\
  world_of (@createDirectories (hostOf noWorkspace) constructor 1%nat)
    = 2%nat /\
  In (EvConsoleError (MsgCreateDirsFailed (JS.lit "EACCES")))
     (trace_of (@createDirectories (hostOf noWorkspace) constructor 1%nat)) /\
  @run (hostOf noWorkspace) constructor 0%nat =
    (world_of (@convertAll (hostOf noWorkspace) constructor 2%nat),
     [EvConsoleLog MsgBanner; EvConsoleLog MsgRule; EvGetAvailableCodecs;
      EvConsoleLog MsgFfmpegInstalled]
     ++ trace_of (@createDirectories (hostOf noWorkspace) constructor 1%nat)
     ++ trace_of (@convertAll (hostOf noWorkspace) constructor 2%nat),
     completion_of (@convertAll (hostOf noWorkspace) constructor 2%nat)) /\
  In (EvReaddir (JS.lit "./input"))
     (trace_of (@run (hostOf noWorkspace) constructor 0%nat)).
Proof.
  apply (@run_continues_after_workspace_error (hostOf noWorkspace) constructor
           0%nat 1%nat 2%nat (err "EACCES")).
  - reflexivity.
  - left. reflexivity.
Defined.

(** C8 as the specification states it fails: the sub-directory
    [clips.webm] of the input directory is returned. *)
Lemma getInputFiles_keeps_directory :
  ~ (forall (host : Host) (w w' : World) (entries : list Dirent)
            (e : Dirent) (files : list jsstring),
       readdir (inputDir constructor) w = (w', inr entries) ->
       In e entries -> d_isDirectory e = true ->
       completion_of (getInputFiles constructor w) = Normal files ->
       ~ In (d_name e) files).
Proof.
  intros claim.
  apply (claim (hostOf oddEntries) 0%nat 1%nat
           [directory "clips.webm"; file ".webm"; file "readme.txt"]
           (directory "clips.webm") [JS.lit "clips.webm"]).
  - reflexivity.
  - left. reflexivity.
  - reflexivity.
  - reflexivity.
  - left. reflexivity.
Qed.

(** C8 as the code has it, on the same listing. *)
Lemma getInputFiles_ignores_entry_kind_witness :
  In (JS.lit "clips.webm") [JS.lit "clips.webm"] <->
  Recognized (host := hostOf oddEntries) (JS.lit "clips.webm").
Proof.
  apply (@getInputFiles_ignores_entry_kind (hostOf oddEntries) 0%nat 1%nat
           [directory "clips.webm"; file ".webm"; file "readme.txt"]
           (directory "clips.webm") [JS.lit "clips.webm"]).
  - reflexivity.
  - left. reflexivity.
  - reflexivity.
  - reflexivity.
Defined.

(** C9 on the dot-file [.webm]. *)
Lemma getInputFiles_skips_bare_extension_witness :
  Path.extname (JS.lit ".webm") = [] /\
  isSupported (host := hostOf oddEntries) constructor (JS.lit ".webm") = false /\
  ~ In (JS.lit ".webm") [JS.lit "clips.webm"].
Proof.
  apply (@getInputFiles_skips_bare_extension (hostOf oddEntries)
           (JS.lit ".webm") 0%nat [JS.lit "clips.webm"]).
  - unfold recognizedExt. simpl. tauto.
  - reflexivity.
Defined.

(** C10 on [my.holiday.clip.MKV]. *)
Lemma convertFile_strips_last_extension_witness :
  outputFileNameOf (JS.lit "my.holiday.clip.MKV") = JS.lit "my.holiday.clip.mp4" /\
  engineInvocations
    (trace_of (@convertFile (hostOf scenario) constructor
                 (JS.lit "my.holiday.clip.MKV") 0%nat)) =
    [(inputPathOf constructor (JS.lit "my.holiday.clip.MKV"),
      JS.lit "output/my.holiday.clip.mp4")] /\
  outputFileNameOf (JS.lit "a.b.webm") = JS.lit "a.b.mp4".
Proof.
  apply (@convertFile_strips_last_extension (hostOf scenario)
           (JS.lit "my.holiday.clip") (JS.lit "MKV") 0%nat).
  - reflexivity.
  - reflexivity.
  - reflexivity.
  - discriminate.
  - left. discriminate.
Defined.

End Runs.

(* ================================================================== *)
(** ** Facts about traces *)

Lemma fsWrites_flat (t : list Event) :
  fsWrites t =
  flat_map (fun e => match e with EvEnsureDir d => [d] | _ => [] end) t.
Proof.
  induction t as [|e t IH]; [reflexivity|]. destruct e; simpl; now rewrite IH.
Qed.

Lemma fsReads_flat (t : list Event) :
  fsReads t =
  flat_map (fun e => match e with EvReaddir d => [d] | _ => [] end) t.
Proof.
  induction t as [|e t IH]; [reflexivity|]. destruct e; simpl; now rewrite IH.
Qed.

(** An observation that ignores the lines of the ['start'] and
    ['progress'] handlers sees nothing in them. *)
Lemma observe_notes {B} (g : Event -> list B) (notes : list EngineNote) :
  (forall c, g (EvConsoleLog (MsgCommand c)) = []) ->
  (forall r, g (EvConsoleLog (MsgProgress r)) = []) ->
  flat_map g (noteEvents notes) = [].
Proof.
  intros Hc Hp. induction notes as [|n notes IH]; [reflexivity|].
  unfold noteEvents in *. cbn [flat_map]. rewrite flat_map_app, IH.
  destruct n as [c|[r|]]; cbn [flat_map app]; rewrite ?Hc, ?Hp; reflexivity.
Qed.

(** An observation that ignores a kind of console line sees nothing in a
    list of such lines. *)
Lemma observe_lines {A B} (g : Event -> list B) (line : A -> Event)
    (l : list A) :
  (forall x, g (line x) = []) -> flat_map g (map line l) = [].
Proof.
  intros Hg. induction l as [|x l IH]; [reflexivity|].
  cbn [map flat_map]. now rewrite Hg, IH.
Qed.

(** What an observation sees in the events of one file. *)
Lemma observe_file {B} (g : Event -> list B) (this : Converter)
    (fo : jsstring * Outcome) :
  (forall c, g (EvConsoleLog (MsgCommand c)) = []) ->
  (forall r, g (EvConsoleLog (MsgProgress r)) = []) ->
  flat_map g (fileEvents this fo) =
  g (EvConsoleLog (MsgConverting (fst fo) (outputFileNameOf (fst fo))))
  ++ g (EvFfmpeg (inputPathOf this (fst fo)) outputOptions
                 (outputPathOf this (fst fo)))
  ++ match snd (snd fo) with
     | None => g (EvConsoleLog (MsgConverted (outputFileNameOf (fst fo))))
     | Some err =>
         g (EvConsoleError (MsgConvertFailed (fst fo) (message err)))
     end.
Proof.
  intros Hc Hp. unfold fileEvents. rewrite !flat_map_app.
  rewrite (observe_notes g _ Hc Hp). cbn [flat_map app].
  destruct (snd (snd fo)); cbn [flat_map];
    rewrite ?app_nil_r, <- ?app_assoc; reflexivity.
Qed.

(** What an observation sees in the events of the loop, file by file. *)
Lemma observe_loop {B C} (g : Event -> list B) (this : Converter)
    (h : jsstring * Outcome -> list C) (k : C -> B)
    (fos : list (jsstring * Outcome)) :
  (forall fo, flat_map g (fileEvents this fo) = map k (h fo)) ->
  flat_map g (flat_map (fileEvents this) fos) = map k (flat_map h fos).
Proof.
  intros H. induction fos as [|fo fos IH]; [reflexivity|].
  cbn [flat_map]. now rewrite flat_map_app, map_app, H, IH.
Qed.

Lemma observe_loop_nothing {B} (g : Event -> list B) (this : Converter)
    (fos : list (jsstring * Outcome)) :
  (forall fo, flat_map g (fileEvents this fo) = []) ->
  flat_map g (flat_map (fileEvents this) fos) = [].
Proof.
  intros H. induction fos as [|fo fos IH]; [reflexivity|].
  cbn [flat_map]. now rewrite flat_map_app, H, IH.
Qed.

(** What the observations see in the summary block. *)
Lemma observe_summary (results : Results) :
  successCounts (summaryEvents results) = [JS.alen (success results)] /\
  failedCounts (summaryEvents results) = [JS.alen (failed results)] /\
  summaryFailures (summaryEvents results) =
    map (fun i => (f_input i, f_error i)) (failed results) /\
  failedHeaders (summaryEvents results) =
    match failed results with [] => [] | _ => [tt] end /\
  failureLines (summaryEvents results) = [] /\
  convertedLines (summaryEvents results) = [] /\
  engineCommands (summaryEvents results) = [] /\
  probes (summaryEvents results) = [] /\
  fsWrites (summaryEvents results) = [] /\
  fsReads (summaryEvents results) = [].
Proof.
  rewrite fsWrites_flat, fsReads_flat.
  unfold summaryEvents, successCounts, failedCounts, summaryFailures,
    failedHeaders, failureLines, convertedLines, engineCommands, probes.
  destruct (failed results) as [|i l].
  - repeat split; reflexivity.
  - replace (0 <? JS.alen (i :: l)) with true by reflexivity.
    rewrite !flat_map_app. cbn [flat_map app].
    repeat split; try reflexivity;
      try (rewrite (observe_lines _ (fun item => EvConsoleLog
                      (MsgFailedItem (f_input item) (f_error item))))
             by reflexivity; reflexivity).
    clear. generalize (i :: l). intros l'.
    induction l' as [|x l' IH]; [reflexivity|].
    cbn [map flat_map app]. now rewrite IH.
Qed.

(* ================================================================== *)
(** ** Facts about whole runs *)

Section RunFacts.

Context {host : Host}.

(** The loop, file by file: its events and its results are those of the
    answers of the engine, in the order of the files. *)
Lemma convertLoop_outcomes (this : Converter) (files : list jsstring) :
  forall (results : Results) (w : World),
  exists outcomes : list Outcome,
    length outcomes = length files /\
    trace_of (convertLoop this files results w) =
      flat_map (fileEvents this) (combine files outcomes) /\
    completion_of (convertLoop this files results w) =
      Normal (mkResults
                (success results
                 ++ flat_map (successOf this) (combine files outcomes))
                (failed results
                 ++ flat_map failedOf (combine files outcomes))).
Proof.
  induction files as [|file rest IH]; intros results w.
  - exists []. cbn. rewrite !app_nil_r. destruct results. now repeat split.
  - rewrite convertLoop_cons. cbv zeta. rewrite convertFile_run. cbv zeta.
    unfold world_of, trace_of, completion_of in *. cbn [fst snd].
    destruct (ffmpegRun _ _ _ w) as [w1 [notes term]]. cbn [fst snd].
    destruct term as [err|];
      match goal with
      | |- context [convertLoop this rest ?r w1] =>
          destruct (IH r w1) as (outs & Hl & Ht & Hc)
      end;
      [exists ((notes, Some err) :: outs) | exists ((notes, None) :: outs)];
      cbn [length combine flat_map];
      (split; [now rewrite Hl|]); rewrite Ht, Hc;
      unfold fileEvents, successOf, failedOf; cbn [fst snd success failed app];
      rewrite <- ?app_assoc; split; reflexivity.
Qed.

(** The events of [getInputFiles]: the listing, and the error line when
    the listing failed. *)
Lemma getInputFiles_trace (this : Converter) (w : World) :
  trace_of (getInputFiles this w) = [EvReaddir (inputDir this)] \/
  exists m, trace_of (getInputFiles this w) =
            [EvReaddir (inputDir this); EvConsoleError (MsgReadInputFailed m)].
Proof.
  destruct (readdir (inputDir this) w) as [w' [err|entries]] eqn:H.
  - rewrite (getInputFiles_failed _ _ _ _ H). right. now eexists.
  - rewrite (getInputFiles_listed _ _ _ _ H). now left.
Qed.

(** The whole trace of [convertAll], from the enumerated files and the
    answers of the engine. *)
Lemma convertAll_shape (this : Converter) (w : World) :
  exists (files : list jsstring) (outcomes : list Outcome),
    completion_of (getInputFiles this w) = Normal files /\
    length outcomes = length files /\
    completion_of (convertAll this w) = Normal tt /\
    trace_of (convertAll this w) =
      EvConsoleLog MsgBatchStart :: trace_of (getInputFiles this w)
      ++ match files with
         | [] => [EvConsoleLog MsgNoFiles;
                  EvConsoleLog (MsgPutFilesHint (inputDir this))]
         | _ =>
             EvConsoleLog (MsgFound (JS.alen files))
             :: map (fun file => EvConsoleLog (MsgFileItem file)) files
             ++ flat_map (fileEvents this) (combine files outcomes)
             ++ summaryEvents
                  (mkResults
                     (flat_map (successOf this) (combine files outcomes))
                     (flat_map failedOf (combine files outcomes)))
         end.
Proof.
  destruct (getInputFiles_total this w) as (files & Hfiles & _).
  destruct (convertLoop_outcomes this files (mkResults [] [])
              (world_of (getInputFiles this w)))
    as (outcomes & Hl & Ht & Hc).
  exists files, outcomes. split; [exact Hfiles|]. split; [exact Hl|].
  destruct files as [|f files'].
  - rewrite (convertAll_empty this w Hfiles). now split.
  - cbn [success failed app] in Hc.
    rewrite (convertAll_batch this w _ _ Hfiles ltac:(discriminate) Hc).
    unfold trace_of at 1, completion_of at 1. cbn [fst snd].
    split; [reflexivity|]. now rewrite Ht.
Qed.

(** The three ways [createDirectories] can go. *)
Lemma createDirectories_cases (this : Converter) (w : World) :
  (exists err,
     snd (ensureDir (inputDir this) w) = Some err /\
     createDirectories this w =
       (fst (ensureDir (inputDir this) w),
        [EvEnsureDir (inputDir this);
         EvConsoleError (MsgCreateDirsFailed (message err))],
        Normal tt)) \/
  (exists err,
     snd (ensureDir (inputDir this) w) = None /\
     snd (ensureDir (outputDir this) (fst (ensureDir (inputDir this) w)))
       = Some err /\
     createDirectories this w =
       (fst (ensureDir (outputDir this) (fst (ensureDir (inputDir this) w))),
        [EvEnsureDir (inputDir this); EvEnsureDir (outputDir this);
         EvConsoleError (MsgCreateDirsFailed (message err))],
        Normal tt)) \/
  (snd (ensureDir (inputDir this) w) = None /\
   snd (ensureDir (outputDir this) (fst (ensureDir (inputDir this) w)))
     = None /\
   createDirectories this w =
     (fst (ensureDir (outputDir this) (fst (ensureDir (inputDir this) w))),
      [EvEnsureDir (inputDir this); EvEnsureDir (outputDir this);
       EvConsoleLog MsgDirsCreated],
      Normal tt)).
Proof.
  unfold createDirectories, tryCatch, bind, fs_ensureDir, console_log,
    console_error, emit.
  destruct (ensureDir (inputDir this) w) as [w1 [e1|]]; cbn [fst snd].
  - left. now exists e1.
  - destruct (ensureDir (outputDir this) w1) as [w2 [e2|]]; cbn [fst snd].
    + right. left. now exists e2.
    + right. right. now repeat split.
Qed.

End RunFacts.

(* ================================================================== *)
(** ** What the observations see in the loop and in [convertAll] *)

Lemma loop_commands (this : Converter) (fos : list (jsstring * Outcome)) :
  engineCommands (flat_map (fileEvents this) fos) =
  map (fun fo => (inputPathOf this (fst fo), outputOptions,
                  outputPathOf this (fst fo))) fos.
Proof.
  unfold engineCommands. induction fos as [|fo fos IH]; [reflexivity|].
  cbn [flat_map map]. rewrite flat_map_app, IH.
  rewrite observe_file by reflexivity.
  destruct (snd (snd fo)); reflexivity.
Qed.

Lemma loop_failures (this : Converter) (fos : list (jsstring * Outcome)) :
  failureLines (flat_map (fileEvents this) fos) =
  map (fun i => (f_input i, f_error i)) (flat_map failedOf fos).
Proof.
  unfold failureLines. apply observe_loop. intros fo.
  rewrite observe_file by reflexivity. unfold failedOf.
  destruct (snd (snd fo)); reflexivity.
Qed.

Lemma loop_converted (this : Converter) (fos : list (jsstring * Outcome)) :
  convertedLines (flat_map (fileEvents this) fos) =
  map (fun s => outputFileNameOf (s_input s)) (flat_map (successOf this) fos).
Proof.
  unfold convertedLines. apply observe_loop. intros fo.
  rewrite observe_file by reflexivity. unfold successOf.
  destruct (snd (snd fo)); reflexivity.
Qed.

(** The loop prints no line of the summary, probes nothing and does not
    touch the file system. *)
Lemma loop_quiet (this : Converter) (fos : list (jsstring * Outcome)) :
  successCounts (flat_map (fileEvents this) fos) = [] /\
  failedCounts (flat_map (fileEvents this) fos) = [] /\
  summaryFailures (flat_map (fileEvents this) fos) = [] /\
  failedHeaders (flat_map (fileEvents this) fos) = [] /\
  probes (flat_map (fileEvents this) fos) = [] /\
  fsWrites (flat_map (fileEvents this) fos) = [] /\
  fsReads (flat_map (fileEvents this) fos) = [].
Proof.
  rewrite fsWrites_flat, fsReads_flat.
  unfold successCounts, failedCounts, summaryFailures, failedHeaders, probes.
  repeat split; apply observe_loop_nothing; intros fo;
    rewrite observe_file by reflexivity;
    destruct (snd (snd fo)); reflexivity.
Qed.


Section RunObservations.

Context {host : Host}.

(** Everything the observations see in a call of [convertAll], from the
    enumerated files and the answers of the engine. *)
Lemma convertAll_observed (this : Converter) (w : World) :
  exists (files : list jsstring) (outcomes : list Outcome),
    completion_of (getInputFiles this w) = Normal files /\
    length outcomes = length files /\
    completion_of (convertAll this w) = Normal tt /\
    engineCommands (trace_of (convertAll this w)) =
      map (fun f => (inputPathOf this f, outputOptions, outputPathOf this f))
          files /\
    failureLines (trace_of (convertAll this w)) =
      map (fun i => (f_input i, f_error i))
          (flat_map failedOf (combine files outcomes)) /\
    convertedLines (trace_of (convertAll this w)) =
      map (fun s => outputFileNameOf (s_input s))
          (flat_map (successOf this) (combine files outcomes)) /\
    summaryFailures (trace_of (convertAll this w)) =
      map (fun i => (f_input i, f_error i))
          (flat_map failedOf (combine files outcomes)) /\
    successCounts (trace_of (convertAll this w)) =
      match files with
      | [] => []
      | _ => [JS.alen (flat_map (successOf this) (combine files outcomes))]
      end /\
    failedCounts (trace_of (convertAll this w)) =
      match files with
      | [] => []
      | _ => [JS.alen (flat_map failedOf (combine files outcomes))]
      end /\
    failedHeaders (trace_of (convertAll this w)) =
      match flat_map failedOf (combine files outcomes) with
      | [] => []
      | _ => [tt]
      end /\
    probes (trace_of (convertAll this w)) = [] /\
    fsWrites (trace_of (convertAll this w)) = [] /\
    fsReads (trace_of (convertAll this w)) = [inputDir this].
Proof.
  destruct (convertAll_shape this w) as (files & outcomes & Hf & Hl & Hc & Ht).
  exists files, outcomes.
  split; [exact Hf|]. split; [exact Hl|]. split; [exact Hc|].
  rewrite Ht. clear Ht Hc Hf.
  set (fos := combine files outcomes).
  assert (Hcmd : map (fun fo : jsstring * Outcome =>
                   (inputPathOf this (fst fo), outputOptions,
                    outputPathOf this (fst fo))) fos =
                 map (fun f => (inputPathOf this f, outputOptions,
                                outputPathOf this f)) files).
  { unfold fos. clear fos. revert outcomes Hl.
    induction files as [|f files IH]; intros [|o outcomes] Hl;
      try discriminate; [reflexivity|].
    injection Hl as Hl. cbn [combine map fst]. now rewrite IH. }
  pose proof (loop_commands this fos) as Lc.
  pose proof (loop_failures this fos) as Lf.
  pose proof (loop_converted this fos) as Lv.
  destruct (loop_quiet this fos) as (Q1 & Q2 & Q3 & Q4 & Q5 & Q6 & Q7).
  destruct (observe_summary
              (mkResults (flat_map (successOf this) fos)
                         (flat_map failedOf fos)))
    as (S1 & S2 & S3 & S4 & S5 & S6 & S7 & S8 & S9 & S10).
  cbn [success failed] in *.
  rewrite fsWrites_flat, fsReads_flat in *.
  unfold engineCommands, failureLines, convertedLines, summaryFailures,
    successCounts, failedCounts, failedHeaders, probes in *.
  assert (Hempty : files = [] -> fos = []) by (intros ->; reflexivity).
  destruct (getInputFiles_trace this w) as [-> | [m ->]];
    (destruct files as [|f files'];
     [ rewrite (Hempty eq_refl); repeat split; reflexivity
     | cbn [flat_map app]; rewrite !flat_map_app;
       rewrite !(observe_lines _ (fun file => EvConsoleLog (MsgFileItem file)))
         by reflexivity;
       rewrite ?Lc, ?Lf, ?Lv, ?Q1, ?Q2, ?Q3, ?Q4, ?Q5, ?Q6, ?Q7,
         ?S1, ?S2, ?S3, ?S4, ?S5, ?S6, ?S7, ?S8, ?S9, ?S10;
       cbn [app]; rewrite ?app_nil_r;
       repeat split; try reflexivity; try assumption ]).
Qed.

End RunObservations.

(* ================================================================== *)
(** ** File names and letter case *)

Lemma unit_eqb_lower (c k : N) :
  (k < 65)%N -> JS.unit_eqb (JS.lowerAsciiUnit c) k = JS.unit_eqb c k.
Proof.
  intros Hk. destruct (JS.unit_eqb c k) eqn:E.
  - apply unit_eqb_eq in E. apply unit_eqb_eq.
    now apply lowerAsciiUnit_fixes.
  - apply unit_eqb_neq in E. apply unit_eqb_neq. intros E'. apply E.
    now apply (lowerAsciiUnit_fixes c k Hk).
Qed.

(** The scan only asks whether a unit is a dot or a slash. *)
Lemma scan_loop_lower (units : list N) : forall i st,
  scan_loop (map JS.lowerAsciiUnit units) i st = scan_loop units i st.
Proof.
  induction units as [|c units IH]; intros i st; [reflexivity|].
  cbn [map scan_loop].
  rewrite (unit_eqb_lower c CHAR_FORWARD_SLASH) by reflexivity.
  unfold scan_unit.
  rewrite (unit_eqb_lower c CHAR_DOT) by reflexivity.
  destruct (JS.unit_eqb c CHAR_FORWARD_SLASH); [|apply IH].
  destruct (negb (matchedSlash st)); [reflexivity|apply IH].
Qed.

Lemma slice_lower (s : jsstring) (a b : Z) :
  JS.slice (JS.lowerAscii s) a b = JS.lowerAscii (JS.slice s a b).
Proof.
  unfold JS.slice, JS.lowerAscii, JS.len. rewrite length_map.
  now rewrite skipn_map, firstn_map.
Qed.

(** [path.extname] commutes with lower-casing. *)
Lemma extname_lower (p : jsstring) :
  extname (JS.lowerAscii p) = JS.lowerAscii (extname p).
Proof.
  assert (Hscan : scan_loop (rev (JS.lowerAscii p))
                    (JS.len (JS.lowerAscii p) - 1) scan0 =
                  scan_loop (rev p) (JS.len p - 1) scan0).
  { replace (JS.len (JS.lowerAscii p)) with (JS.len p)
      by (unfold JS.len, JS.lowerAscii; now rewrite length_map).
    unfold JS.lowerAscii. rewrite <- map_rev. apply scan_loop_lower. }
  unfold extname. rewrite Hscan.
  destruct (noExtension _ || _); [reflexivity|]. apply slice_lower.
Qed.

Lemma forallb_firstn {A} (f : A -> bool) (n : nat) (l : list A) :
  forallb f l = true -> forallb f (firstn n l) = true.
Proof.
  revert n. induction l as [|x l IH]; intros [|n] H; try reflexivity.
  simpl in *. apply andb_true_iff in H as [Hx Hl].
  now rewrite Hx, IH.
Qed.

Lemma forallb_skipn {A} (f : A -> bool) (n : nat) (l : list A) :
  forallb f l = true -> forallb f (skipn n l) = true.
Proof.
  revert n. induction l as [|x l IH]; intros [|n] H; try assumption;
    try reflexivity.
  simpl in *. apply andb_true_iff in H as [Hx Hl]. now apply IH.
Qed.

(** The extension of an ASCII name is ASCII. *)
Lemma extname_ascii (p : jsstring) :
  forallb JS.isAsciiUnit p = true ->
  forallb JS.isAsciiUnit (extname p) = true.
Proof.
  intros H. unfold extname. destruct (noExtension _ || _); [reflexivity|].
  unfold JS.slice. now apply forallb_firstn, forallb_skipn.
Qed.

Lemma lowerAscii_ascii (s : jsstring) :
  forallb JS.isAsciiUnit s = true ->
  forallb JS.isAsciiUnit (JS.lowerAscii s) = true.
Proof.
  intros H. unfold JS.lowerAscii. rewrite forallb_forall in *.
  intros c Hc. apply in_map_iff in Hc as (c' & <- & Hc').
  specialize (H c' Hc'). unfold JS.isAsciiUnit, JS.lowerAsciiUnit in *.
  apply N.ltb_lt in H. apply N.ltb_lt.
  destruct (N.leb_spec 65 c'); destruct (N.leb_spec c' 90); simpl; lia.
Qed.

Lemma lowerAscii_idempotent (s : jsstring) :
  JS.lowerAscii (JS.lowerAscii s) = JS.lowerAscii s.
Proof.
  unfold JS.lowerAscii. rewrite map_map. apply map_ext. intros c.
  unfold JS.lowerAsciiUnit.
  destruct (N.leb_spec 65 c); destruct (N.leb_spec c 90);
    cbn [andb]; try reflexivity.
  - destruct (N.leb_spec 65 (c + 32)); destruct (N.leb_spec (c + 32) 90);
      cbn [andb]; try reflexivity; lia.
  - destruct (N.leb_spec 65 c); destruct (N.leb_spec c 90);
      cbn [andb]; try reflexivity; lia.
  - destruct (N.leb_spec 65 c); destruct (N.leb_spec c 90);
      cbn [andb]; try reflexivity; lia.
  - destruct (N.leb_spec 65 c); destruct (N.leb_spec c 90);
      cbn [andb]; try reflexivity; lia.
Qed.

(** The input directory joined with a file name that does not end with a
    dot. *)
Lemma join_input (seg : jsstring) (c : N) :
  hasUnit CHAR_FORWARD_SLASH seg = false ->
  c <> CHAR_FORWARD_SLASH -> c <> CHAR_DOT ->
  join [inputDir constructor; seg ++ [c]] = JS.lit "input/" ++ seg ++ [c].
Proof.
  intros Hs Hc Hd.
  exact (join_dot_dir (JS.lit "input") seg c eq_refl Hs Hc Hd
           116%N (JS.lit "inpu") eq_refl ltac:(discriminate)).
Qed.

(** A list that is not empty ends with some element. *)
Lemma ends_with {A} (l : list A) : l <> [] -> exists l' x, l = l' ++ [x].
Proof.
  intros H. destruct (exists_last H) as (l' & x & ->). now exists l', x.
Qed.

(* ================================================================== *)
(** ** Further properties of the converter *)

Section FurtherProperties.

Context {host : Host}.

(** X1. [run] never throws: whatever the probe, the file system and the
    engine answer, the promise it returns is fulfilled, so the [catch] of
    the main script has nothing to report. *)
Theorem run_never_throws (this : Converter) (w : World) :
  completion_of (run this w) = Normal tt.
Proof.
  destruct (getAvailableCodecs w) as [w1 [err|]] eqn:H.
  - unfold run. unfold bind at 1. unfold console_log at 1, emit at 1.
    unfold bind at 1. unfold console_log at 1, emit at 1.
    unfold bind at 1. rewrite checkFFmpeg_run, H. reflexivity.
  - rewrite (run_engine_present this w w1 H).
    unfold completion_of at 1. cbn [snd].
    destruct (convertAll_shape this (world_of (createDirectories this w1)))
      as (files & outcomes & _ & _ & Hc & _).
    exact Hc.
Qed.

(** X2. [createDirectories] asks for the input directory first; it asks
    for the output directory exactly when the input directory was created,
    and says that the directories are ready exactly when both were. It
    never throws. *)
Theorem createDirectories_order (this : Converter) (w : World) :
  fsWrites (trace_of (createDirectories this w)) =
    match snd (ensureDir (inputDir this) w) with
    | Some _ => [inputDir this]
    | None => [inputDir this; outputDir this]
    end /\
  (In (EvConsoleLog MsgDirsCreated) (trace_of (createDirectories this w)) <->
   snd (ensureDir (inputDir this) w) = None /\
   snd (ensureDir (outputDir this) (fst (ensureDir (inputDir this) w)))
     = None) /\
  completion_of (createDirectories this w) = Normal tt.
Proof.
  destruct (createDirectories_cases this w)
    as [(err & H1 & ->) | [(err & H1 & H2 & ->) | (H1 & H2 & ->)]];
    unfold trace_of, completion_of; cbn [fst snd fsWrites]; rewrite H1;
    (split; [reflexivity|]); (split; [|reflexivity]).
  - split.
    + intros [E|[E|[]]]; discriminate.
    + intros [E _]. discriminate.
  - rewrite H2. split.
    + intros [E|[E|[E|[]]]]; discriminate.
    + intros [_ E]. discriminate.
  - rewrite H2. split; [now split|]. intros _. right. right. now left.
Qed.

(** X3. The footprint of [run]: the probe comes before every other effect
    and happens once; the only directories ever created are the input and
    the output directory, in that order; the only directory ever listed is
    the input directory, at most once; and no command reaches the engine
    unless that listing took place. *)
Theorem run_footprint (this : Converter) (w : World) :
  (exists rest,
     trace_of (run this w) =
     [EvConsoleLog MsgBanner; EvConsoleLog MsgRule; EvGetAvailableCodecs]
     ++ rest) /\
  probes (trace_of (run this w)) = [tt] /\
  (fsWrites (trace_of (run this w)) = [] \/
   fsWrites (trace_of (run this w)) = [inputDir this] \/
   fsWrites (trace_of (run this w)) = [inputDir this; outputDir this]) /\
  (fsReads (trace_of (run this w)) = [] \/
   fsReads (trace_of (run this w)) = [inputDir this]) /\
  (fsReads (trace_of (run this w)) = [] ->
   engineCommands (trace_of (run this w)) = []).
Proof.
  destruct (getAvailableCodecs w) as [w1 [err|]] eqn:H.
  - assert (Hrun : trace_of (run this w) =
      [EvConsoleLog MsgBanner; EvConsoleLog MsgRule; EvGetAvailableCodecs;
       EvConsoleError MsgFfmpegMissing; EvConsoleLog MsgInstallHint]).
    { unfold run. unfold bind at 1. unfold console_log at 1, emit at 1.
      unfold bind at 1. unfold console_log at 1, emit at 1.
      unfold bind at 1. rewrite checkFFmpeg_run, H. reflexivity. }
    rewrite Hrun. split; [now eexists|]. repeat split; auto.
  - set (w2 := world_of (createDirectories this w1)).
    assert (Ht : trace_of (run this w) =
              [EvConsoleLog MsgBanner; EvConsoleLog MsgRule;
               EvGetAvailableCodecs; EvConsoleLog MsgFfmpegInstalled]
              ++ trace_of (createDirectories this w1)
              ++ trace_of (convertAll this w2)).
    { now rewrite (run_engine_present this w w1 H). }
    rewrite Ht. clear Ht.
    destruct (convertAll_observed this w2)
      as (files & outs & _ & _ & _ & Hcmd & _ & _ & _ & _ & _ & _
          & Hp & Hw & Hr).
    split; [now eexists|].
    rewrite fsWrites_flat, fsReads_flat in *.
    unfold probes, engineCommands in *.
    rewrite !flat_map_app, Hp, Hw, Hr. cbn [flat_map app].
    rewrite !app_nil_r.
    destruct (createDirectories_cases this w1)
      as [(err & _ & ->) | [(err & _ & _ & ->) | (_ & _ & ->)]];
      unfold trace_of at 1 2 3 4; cbn [fst snd flat_map app];
      (split; [reflexivity|]); (split; [auto|]); (split; [auto|]);
      discriminate.
Qed.


(** X5. The summary of [convertAll] agrees with what was reported while
    converting: the failures it lists are, in the same order and with the
    same messages, the failures written when they happened; the failed
    header is printed exactly when there is one; and when files were
    enumerated the two counts are the numbers of files reported converted
    and reported failed (when none was, no count is printed and nothing
    is converted). *)
Theorem convertAll_summary_consistent (this : Converter) (w : World) :
  summaryFailures (trace_of (convertAll this w)) =
    failureLines (trace_of (convertAll this w)) /\
  failedHeaders (trace_of (convertAll this w)) =
    match failureLines (trace_of (convertAll this w)) with
    | [] => []
    | _ => [tt]
    end /\
  ((successCounts (trace_of (convertAll this w)) = [] /\
    failedCounts (trace_of (convertAll this w)) = [] /\
    engineCommands (trace_of (convertAll this w)) = []) \/
   (successCounts (trace_of (convertAll this w)) =
      [JS.alen (convertedLines (trace_of (convertAll this w)))] /\
    failedCounts (trace_of (convertAll this w)) =
      [JS.alen (failureLines (trace_of (convertAll this w)))] /\
    JS.alen (convertedLines (trace_of (convertAll this w)))
    + JS.alen (failureLines (trace_of (convertAll this w)))
    = JS.alen (engineCommands (trace_of (convertAll this w))))).
Proof.
  destruct (convertAll_observed this w)
    as (files & outs & _ & Hl & _ & Hcmd & Hfl & Hcv & Hsf & Hsc & Hfc & Hfh
        & _).
  rewrite Hsf, Hfl, Hfh, Hsc, Hfc, Hcv, Hcmd.
  split; [reflexivity|]. split.
  - destruct (flat_map failedOf (combine files outs)); reflexivity.
  - destruct files as [|f files']; [left; now repeat split|right].
    unfold JS.alen. rewrite !length_map. split; [reflexivity|].
    split; [reflexivity|].
    clear - Hl. revert outs Hl. generalize (f :: files'). intros l.
    induction l as [|x l IH]; intros [|o outs] Hl; try discriminate;
      [reflexivity|].
    injection Hl as Hl. specialize (IH outs Hl).
    cbn [combine flat_map]. rewrite !length_app.
    unfold successOf at 1, failedOf at 1. cbn [fst snd].
    destruct (snd o); cbn [length]; lia.
Qed.

(** X6. The filter does not look at the case of ASCII letters anywhere in
    the name: two ASCII names with the same lower-case form are both
    kept or both left out. *)
Theorem isSupported_ignores_ascii_case (this : Converter) (a b : jsstring) :
  forallb JS.isAsciiUnit a = true -> forallb JS.isAsciiUnit b = true ->
  JS.lowerAscii a = JS.lowerAscii b ->
  isSupported this a = isSupported this b.
Proof.
  intros Ha Hb Hab.
  assert (Hlow : forall f, forallb JS.isAsciiUnit f = true ->
            toLowerCase (extname f) = extname (JS.lowerAscii f)).
  { intros f Hf. rewrite toLowerCase_ascii by now apply extname_ascii.
    symmetry. apply extname_lower. }
  unfold isSupported. now rewrite (Hlow a Ha), (Hlow b Hb), Hab.
Qed.

(** X7. Every file name without slash that passes the filter is a stem,
    not empty, followed by its extension, and [convertFile] hands the
    engine [input/<file>] as input and [output/<stem>.mp4] as output. *)
Theorem supported_file_paths (file : jsstring) (w : World) :
  hasUnit CHAR_FORWARD_SLASH file = false ->
  isSupported constructor file = true ->
  exists stem,
    stem <> [] /\
    file = stem ++ extname file /\
    engineInvocations (trace_of (convertFile constructor file w)) =
      [(JS.lit "input/" ++ file, JS.lit "output/" ++ stem ++ JS.lit ".mp4")].
Proof.
  intros Hs Hsup.
  assert (Hin : In (toLowerCase (extname file)) recognizedSet)
    by (now apply includes_In).
  assert (Hnil : ~ In (toLowerCase []) recognizedSet).
  { rewrite toLowerCase_ascii by reflexivity. simpl. intuition discriminate. }
  assert (Hdot : ~ In (toLowerCase [CHAR_DOT]) recognizedSet).
  { rewrite toLowerCase_ascii by reflexivity. simpl. intuition discriminate. }
  destruct (last_dot_split file) as [Hd | (pre & suf & -> & Hd)].
  { destruct (no_dot_no_ext file Hs Hd) as [He _]. rewrite He in Hin.
    contradiction. }
  rewrite hasUnit_app in Hs. apply orb_false_iff in Hs as [Hpre Hsuf].
  apply hasUnit_cons_false in Hsuf as [_ Hsuf].
  destruct pre as [|c pre].
  { destruct (leading_dot_only suf Hsuf Hd) as [He _].
    change ([] ++ CHAR_DOT :: suf) with (CHAR_DOT :: suf) in Hin.
    rewrite He in Hin. contradiction. }
  assert (Hne : c :: pre <> []) by discriminate.
  destruct suf as [|d suf].
  { exfalso. destruct (JS.eqb (c :: pre) [CHAR_DOT]) eqn:E.
    - apply jseqb_eq in E. rewrite E in Hin.
      change (extname ([CHAR_DOT] ++ [CHAR_DOT])) with (@nil N) in Hin.
      contradiction.
    - destruct (split_at_last_dot (c :: pre) [] Hpre eq_refl eq_refl Hne)
        as [He _].
      + right. intros E'. apply jseqb_eq in E'. congruence.
      + rewrite He in Hin. contradiction. }
  destruct (split_at_last_dot (c :: pre) (d :: suf) Hpre Hsuf Hd Hne)
    as [He Hn]; [left; discriminate|].
  exists (c :: pre). split; [exact Hne|]. split; [now rewrite He|].
  rewrite convertFile_invocation. unfold inputPathOf, outputPathOf,
    outputFileNameOf. rewrite Hn.
  f_equal. f_equal; [|exact (join_output_mp4 (c :: pre) Hpre)].
  destruct (ends_with (d :: suf) ltac:(discriminate)) as (suf' & x & Ex).
  rewrite Ex in *.
  rewrite hasUnit_app in Hsuf, Hd.
  apply orb_false_iff in Hsuf as [Hsuf' Hx].
  apply orb_false_iff in Hd as [_ Hx'].
  apply hasUnit_cons_false in Hx as [Hx _].
  apply hasUnit_cons_false in Hx' as [Hx' _].
  replace ((c :: pre) ++ CHAR_DOT :: suf' ++ [x])
    with (((c :: pre) ++ CHAR_DOT :: suf') ++ [x])
    by (now rewrite <- app_assoc).
  apply join_input; try assumption.
  rewrite hasUnit_app, Hpre. cbn [orb]. simpl.
  change (JS.unit_eqb CHAR_FORWARD_SLASH CHAR_DOT) with false. exact Hsuf'.
Qed.

(** X8. On any file name without slash, what [convertFile] strips is
    exactly what the filter of [getInputFiles] tests: the name is a stem
    followed by its [path.extname], which holds no dot but its first unit,
    and the output name is that stem followed by [.mp4]; a name without
    extension keeps all of itself. *)
Theorem outputFileNameOf_partition (file : jsstring) :
  hasUnit CHAR_FORWARD_SLASH file = false ->
  exists stem,
    file = stem ++ extname file /\
    outputFileNameOf file = stem ++ JS.lit ".mp4" /\
    hasUnit CHAR_DOT (tl (extname file)) = false /\
    (extname file = [] -> outputFileNameOf file = file ++ JS.lit ".mp4").
Proof.
  intros Hs. destruct (name_ext_partition file Hs) as [Hp Hd].
  exists (name (parse file)). split; [now symmetry|].
  split; [reflexivity|]. split; [exact Hd|].
  intros He. rewrite He, app_nil_r in Hp. unfold outputFileNameOf.
  now rewrite Hp.
Qed.

(** X9. From the probe to the engine: when the engine is there and the
    input directory can be listed, [run] hands the engine one command for
    each entry of the listing that passes the filter, in the order of the
    listing and with the same five options every time, whether or not the
    directories could be created, and completes normally. *)
Theorem run_converts_supported_entries (this : Converter) (w w1 w3 : World)
    (entries : list Dirent) :
  getAvailableCodecs w = (w1, None) ->
  readdir (inputDir this) (world_of (createDirectories this w1))
    = (w3, inr entries) ->
  engineCommands (trace_of (run this w)) =
    map (fun f => (inputPathOf this f, outputOptions, outputPathOf this f))
        (filter (isSupported this) (map d_name entries)) /\
  outputOptions =
    [JS.lit "-c:v libx264"; JS.lit "-c:a aac"; JS.lit "-preset medium";
     JS.lit "-crf 23"; JS.lit "-movflags +faststart"] /\
  completion_of (run this w) = Normal tt.
Proof.
  intros Hprobe Hread.
  rewrite (run_engine_present this w w1 Hprobe).
  unfold trace_of at 1, completion_of at 1. cbn [fst snd].
  destruct (convertAll_observed this (world_of (createDirectories this w1)))
    as (files & outs & Hf & _ & Hc & Hcmd & _).
  rewrite (getInputFiles_listed _ _ _ _ Hread) in Hf.
  unfold completion_of at 1 in Hf. cbn [snd] in Hf. injection Hf as <-.
  split; [|now split].
  unfold engineCommands in *. rewrite !flat_map_app, Hcmd.
  destruct (createDirectories_cases this w1)
    as [(err & _ & ->) | [(err & _ & _ & ->) | (_ & _ & ->)]];
    unfold trace_of; cbn [fst snd flat_map app]; reflexivity.
Qed.

End FurtherProperties.

(* ================================================================== *)
(** ** The further properties on scripted runs *)

Module FurtherRuns.

Import Scripted MoreScripts.

(** X6 on [Movie.MKV] and [movie.mkv]. *)
Lemma isSupported_ignores_ascii_case_witness :
  isSupported (host := hostOf scenario) constructor (JS.lit "Movie.MKV") =
  isSupported (host := hostOf scenario) constructor (JS.lit "movie.mkv").
Proof.
  apply (@isSupported_ignores_ascii_case (hostOf scenario) constructor
           (JS.lit "Movie.MKV") (JS.lit "movie.mkv")); reflexivity.
Defined.

(** X7 on [my.clip.FLV]. *)
Lemma supported_file_paths_witness :
  exists stem,
    stem <> [] /\
    JS.lit "my.clip.FLV" = stem ++ Path.extname (JS.lit "my.clip.FLV") /\
    engineInvocations
      (trace_of (@convertFile (hostOf scenario) constructor
                   (JS.lit "my.clip.FLV") 0%nat)) =
      [(JS.lit "input/" ++ JS.lit "my.clip.FLV",
        JS.lit "output/" ++ stem ++ JS.lit ".mp4")].
Proof.
  apply (@supported_file_paths (hostOf scenario) (JS.lit "my.clip.FLV") 0%nat);
    reflexivity.
Defined.

(** X8 on [archive.tar.gz]. *)
Lemma outputFileNameOf_partition_witness :
  exists stem,
    JS.lit "archive.tar.gz" = stem ++ Path.extname (JS.lit "archive.tar.gz") /\
    outputFileNameOf (JS.lit "archive.tar.gz") = stem ++ JS.lit ".mp4" /\
    hasUnit Path.CHAR_DOT (tl (Path.extname (JS.lit "archive.tar.gz"))) = false /\
    (Path.extname (JS.lit "archive.tar.gz") = [] ->
     outputFileNameOf (JS.lit "archive.tar.gz")
     = JS.lit "archive.tar.gz" ++ JS.lit ".mp4").
Proof.
  apply (outputFileNameOf_partition (JS.lit "archive.tar.gz")).
  reflexivity.
Defined.

(** X9 when the directories cannot be created but the input directory
    can be listed. *)
Lemma run_converts_supported_entries_witness :
  engineCommands (trace_of (@run (hostOf readOnly) constructor 0%nat)) =
    map (fun f => (inputPathOf constructor f, outputOptions,
                   outputPathOf constructor f))
        (filter (isSupported (host := hostOf readOnly) constructor)
                (map d_name [file "b.avi"; file "notes.txt"; file "a.MOV"])) /\
  outputOptions =
    [JS.lit "-c:v libx264"; JS.lit "-c:a aac"; JS.lit "-preset medium";
     JS.lit "-crf 23"; JS.lit "-movflags +faststart"] /\
  completion_of (@run (hostOf readOnly) constructor 0%nat) = Normal tt.
Proof.
  apply (@run_converts_supported_entries (hostOf readOnly) constructor
           0%nat 1%nat 3%nat
           [file "b.avi"; file "notes.txt"; file "a.MOV"]); reflexivity.
Defined.

(** The run behind X9, spelled out: both videos are converted, in the
    order of the listing. *)
Example readOnly_run :
  engineInvocations (trace_of (@run (hostOf readOnly) constructor 0%nat)) =
    [(JS.lit "input/b.avi", JS.lit "output/b.mp4");
     (JS.lit "input/a.MOV", JS.lit "output/a.mp4")] /\
  fsWrites (trace_of (@run (hostOf readOnly) constructor 0%nat)) =
    [JS.lit "./input"].
Proof. split; reflexivity. Qed.

End FurtherRuns.
